(** * AT-ENKA: the SAM-BA protocol driver ([samba.py]) over the serial
      port wrapper ([port.py])

    A shallow embedding of [Port] and [Samba] and the properties of the
    driver: command framing, single-unit access, chunked bulk transfer and
    chip identification.

    Python integers are [Z] (unbounded, floor division, two's complement
    bit operations), a [bytearray] is a [list byte], a Python 2 [str] used
    as a command frame is a [string].  The pyserial object behind [Port] is
    an interface ([Serial]); a run of driver code yields, besides its
    result and final state, the list of calls it made on that object. *)

From Stdlib Require Import ZArith List String Ascii Bool Lia.
From Stdlib Require Import Init.Byte.
From Stdlib Require Import Permutation Sorted.
Import ListNotations.

Local Open Scope string_scope.
Local Open Scope list_scope.
Local Open Scope Z_scope.

(** ** Bytes *)

Abbreviation bytes := (list byte) (only parsing).

Definition byte_val (b : byte) : Z := Z.of_N (Byte.to_N b).

Definition str_bytes (s : string) : bytes := list_byte_of_string s.

(** Python's [data[from : to]] for indices [0 <= from], [0 <= to]. *)
Definition slice (data : bytes) (from to : Z) : bytes :=
  firstn (Z.to_nat (to - from)) (skipn (Z.to_nat from) data).

(** ** Python's [%] formatting of integers *)

Module Fmt.

Definition hex_digit (d : Z) : ascii :=
  nth (Z.to_nat d)
      ["0";"1";"2";"3";"4";"5";"6";"7";"8";"9";"A";"B";"C";"D";"E";"F"]%char
      "?"%char.

(** Digits of [z >= 0] in [base], least significant first. *)
Fixpoint digits_rev (base : Z) (fuel : nat) (z : Z) : list Z :=
  match fuel with
  | O => []
  | S f => if z <? base then [z]
           else (z mod base) :: digits_rev base f (z / base)
  end.

Definition digits (base z : Z) : list Z :=
  rev (digits_rev base (S (Z.to_nat (Z.log2 z))) z).

Definition value (base : Z) (ds : list Z) : Z :=
  fold_left (fun acc d => acc * base + d) ds 0.

Definition render (ds : list Z) : string :=
  string_of_list_ascii (map hex_digit ds).

Definition zeros (n : nat) : string :=
  string_of_list_ascii (repeat "0"%char n).

(** [pad0 w sign body]: the [0] flag pads with zeros between the sign and
    the digits up to a total width of [w]; nothing is ever cut. *)
Definition pad0 (w : nat) (sign body : string) : string :=
  (sign ++ zeros (w - String.length sign - String.length body) ++ body)%string.

Definition sign_of (z : Z) : string := if z <? 0 then "-" else "".

(** ["%0wX" % z] *)
Definition X0 (w : nat) (z : Z) : string :=
  pad0 w (sign_of z) (render (digits 16 (Z.abs z))).

(** ["%u" % z] (the same as [%d] in Python) *)
Definition u (z : Z) : string :=
  (sign_of z ++ render (digits 10 (Z.abs z)))%string.

End Fmt.

Definition TERM : string := String "#" (String (ascii_of_nat 10) "").

Definition MAX_PAYLOAD : Z := 4000.

Definition CHIP_ID_ADDR : Z := 0x400E0740.
Definition EX_ID_ADDR   : Z := 0x400E0744.

(** ** Exceptions *)

Inductive exn :=
| TimeoutError (requested got : Z)   (* port.TimeoutError *)
| StructError                        (* struct.error: wrong string size *)
| TypeError                          (* struct.unpack(None, ...) *)
| KeyError (key : Z).                (* MASKS[dlen] *)

(** What a Python call evaluates to. *)
Inductive pyval :=
| PyNone
| PyStr (s : string).

(** ** The pyserial object *)

Class Serial (D : Type) := {
  ser_write       : bytes -> D -> D;
  ser_read        : Z -> D -> bytes * D;
  ser_flushOutput : D -> D;
  ser_flushInput  : D -> D;
  ser_close       : D -> D
}.

Inductive call :=
| SerWrite (data : bytes)
| SerRead (size : Z) (got : bytes)
| SerFlushOutput
| SerFlushInput
| SerClose.

Inductive endian := LittleEndian | BigEndian.

(** ** [struct.unpack] for the three formats the driver uses *)

Inductive struct_fmt :=
| Fmt_ltL    (* "<L": little-endian, standard size 4 *)
| Fmt_H      (* "H" : native order, native size 2 *)
| Fmt_B.     (* "B" : one byte *)

Definition calcsize (f : struct_fmt) : nat :=
  match f with Fmt_ltL => 4%nat | Fmt_H => 2%nat | Fmt_B => 1%nat end.

Definition byte_order (host : endian) (f : struct_fmt) : endian :=
  match f with Fmt_ltL => LittleEndian | Fmt_H | Fmt_B => host end.

(** Unsigned value of a byte string, least significant byte first. *)
Fixpoint le_value (s : bytes) : Z :=
  match s with
  | [] => 0
  | b :: s' => byte_val b + 256 * le_value s'
  end.

Definition be_value (s : bytes) : Z := le_value (rev s).

Definition decode (o : endian) (s : bytes) : Z :=
  match o with LittleEndian => le_value s | BigEndian => be_value s end.

Definition struct_unpack (host : endian) (fmt : option struct_fmt) (s : bytes)
  : exn + Z :=
  match fmt with
  | None => inl TypeError
  | Some f =>
      if Nat.eqb (List.length s) (calcsize f)
      then inr (decode (byte_order host f) s)
      else inl StructError
  end.

(** ** The tables of [chipInfo] *)

(** [Info = namedtuple("Info", "name description")]; a [dict.get] with a
    string default yields either an [Info] or that string. *)
Inductive field :=
| Info (name description : string)
| Text (s : string).

(** A dict display [{k1: v1, k2: v2, ...}] is built left to right, a later
    entry replacing an earlier one with the same key. *)
Fixpoint dict_lookup {V : Type} (d : list (Z * V)) (k : Z) : option V :=
  match d with
  | [] => None
  | (k', v) :: d' =>
      match dict_lookup d' k with
      | Some v' => Some v'
      | None => if k' =? k then Some v else None
      end
  end.

(** [d.get(k, default)] *)
Definition dict_get {V : Type} (d : list (Z * V)) (k : Z) (default : V) : V :=
  match dict_lookup d k with Some v => v | None => default end.

Definition FriendlyNames : list (Z * string) :=
  [ (0xAB0B0AE0, "ATSAM4LC8C"); (0xAB0A09E0, "ATSAM4LC4C"); (0xAB0A07E0, "ATSAM4LC2C");
    (0xAB0B0AE0, "ATSAM4LC8B"); (0xAB0A09E0, "ATSAM4LC4B"); (0xAB0A07E0, "ATSAM4LC2B");
    (0xAB0B0AE0, "ATSAM4LC8A"); (0xAB0A09E0, "ATSAM4LC4A"); (0xAB0A07E0, "ATSAM4LC2A");
    (0xAB0B0AE0, "ATSAM4LS8C"); (0xAB0A09E0, "ATSAM4LS4C"); (0xAB0A07E0, "ATSAM4LS2C");
    (0xAB0B0AE0, "ATSAM4LS8B"); (0xAB0A09E0, "ATSAM4LS4B"); (0xAB0A07E0, "ATSAM4LS2B");
    (0xAB0B0AE0, "ATSAM4LS8A"); (0xAB0A09E0, "ATSAM4LS4A"); (0xAB0A07E0, "ATSAM4LS2A") ].

Definition NvpTypes : list (Z * field) :=
  [ (0, Info "ROM" "ROM");
    (1, Info "ROMLESS" "ROMless or on-chip Flash");
    (4, Info "SRAM" "SRAM emulating ROM");
    (2, Info "FLASH" "Embedded Flash Memory");
    (3, Info "ROM_FLASH" "ROM and Embedded Flash Memory") ].

Definition Archs : list (Z * field) :=
  [ (0x19, Info "AT91SAM9xx" "AT91SAM9xx Series");
    (0x29, Info "AT91SAM9XExx" "AT91SAM9XExx Series");
    (0x34, Info "AT91x34" "AT91x34 Series");
    (0x37, Info "CAP7" "CAP7 Series");
    (0x39, Info "CAP9" "CAP9 Series");
    (0x3B, Info "CAP11" "CAP11 Series");
    (0x40, Info "AT91x40" "AT91x40 Series");
    (0x42, Info "AT91x42" "AT91x42 Series");
    (0x55, Info "AT91x55" "AT91x55 Series");
    (0x60, Info "AT91SAM7Axx" "AT91SAM7Axx Series");
    (0x61, Info "AT91SAM7AQxx" "AT91SAM7AQxx Series");
    (0x63, Info "AT91x63" "AT91x63 Series");
    (0x70, Info "AT91SAM7Sxx" "AT91SAM7Sxx Series");
    (0x71, Info "AT91SAM7XCxx" "AT91SAM7XCxx Series");
    (0x72, Info "AT91SAM7SExx" "AT91SAM7SExx Series");
    (0x73, Info "AT91SAM7Lxx" "AT91SAM7Lxx Series");
    (0x75, Info "AT91SAM7Xxx" "AT91SAM7Xxx Series");
    (0x76, Info "AT91SAM7SLxx" "AT91SAM7SLxx Series");
    (0x80, Info "SAM3UxC" "SAM3UxC Series (100-pin version)");
    (0x81, Info "SAM3UxE" "SAM3UxE Series (144-pin version)");
    (0x83, Info "SAM3AxC/SAM4AxC" "SAM3AxC/SAM4AxC Series (100-pin version)");
    (0x84, Info "SAM3XxC/SAM4XxC" "SAM3XxC/SAM4XxC Series (100-pin version)");
    (0x85, Info "SAM3XxE/SAM4XxE" "SAM3XxE/SAM4XxE Series (144-pin version)");
    (0x86, Info "SAM3XxG/SAM4XxG" "SAM3XxG/SAM4XxG Series (208/217-pin version)");
    (0x88, Info "SAM3SxA/SAM4SxA" "SAM3SxA/SAM4SxA Series (48-pin version)");
    (0x89, Info "SAM3SxB/SAM4SxB" "SAM3SxB/SAM4SxB Series (64-pin version)");
    (0x8A, Info "SAM3SxC/SAM4SxC" "SAM3SxC/SAM4SxC Series (100-pin version)");
    (0x92, Info "AT91x92" "AT91x92 Series");
    (0x93, Info "SAM3NxA" "SAM3NxA Series (48-pin version)");
    (0x94, Info "SAM3NxB" "SAM3NxB Series (64-pin version)");
    (0x95, Info "SAM3NxC" "SAM3NxC Series (100-pin version)");
    (0x99, Info "SAM3SDxB" "SAM3SDxB Series (64-pin version)");
    (0x9A, Info "SAM3SDxC" "SAM3SDxC Series (100-pin version)");
    (0xA5, Info "SAM5A" "SAM5A");
    (0xB0, Info "SAM4L" "SAM4Lxx Series");
    (0xF0, Info "AT75Cxx" "AT75Cxx Series") ].

Definition SRamSizes : list (Z * field) :=
  [ (0, Info "48K" "48K bytes");   (1, Info "1K" "1K bytes");
    (2, Info "2K" "2K bytes");     (3, Info "6K" "6K bytes");
    (4, Info "24K" "24K bytes");   (5, Info "4K" "4K bytes");
    (6, Info "80K" "80K bytes");   (7, Info "160K" "160K bytes");
    (8, Info "8K" "8K bytes");     (9, Info "16K" "16K bytes");
    (10, Info "32K" "32K bytes");  (11, Info "64K" "64K bytes");
    (12, Info "128K" "128K bytes"); (13, Info "256K" "256K bytes");
    (14, Info "96K" "96K bytes");  (15, Info "512K" "512K bytes") ].

Definition NvpSiz2s : list (Z * field) :=
  [ (0, Info "None" "None");          (1, Info "8K" "8K bytes");
    (2, Info "16K" "16K bytes");      (3, Info "32K" "32K bytes");
    (4, Info "Reserved" "Reserved");  (5, Info "64K" "64K bytes");
    (6, Info "Reserved" "Reserved");  (7, Info "128K" "128K bytes");
    (8, Info "Reserved" "Reserved");  (9, Info "256K" "56K bytes");
    (10, Info "512K" "512K bytes");   (11, Info "Reserved" "Reserved");
    (12, Info "1024K" "1024K bytes"); (13, Info "Reserved" "Reserved");
    (14, Info "2048K" "2048K bytes"); (15, Info "Reserved" "Reserved") ].

Definition EProcs : list (Z * field) :=
  [ (1, Info "ARM946ES" "ARM946ES");   (2, Info "ARM7TDMI" "ARM7TDMI");
    (3, Info "CM3" "Cortex-M3");       (4, Info "ARM920T" "ARM920T");
    (5, Info "ARM926EJS" "ARM926EJS"); (6, Info "CA5" "Cortex-A5");
    (7, Info "CM4" "Cortex-M4") ].

Definition NvpSizes : list (Z * field) :=
  [ (0, Info "NONE" "None");          (1, Info "8K" "8K bytes");
    (2, Info "16K" "16K bytes");      (3, Info "32K" "32K bytes");
    (4, Info "Reserved" "Reserved");  (5, Info "64K" "64K bytes");
    (6, Info "Reserved" "Reserved");  (7, Info "128K" "128K bytes");
    (8, Info "Reserved" "Reserved");  (9, Info "256K" "256K bytes");
    (10, Info "512K" "512K bytes");   (11, Info "Reserved" "Reserved");
    (12, Info "1024K" "1024K bytes"); (13, Info "Reserved" "Reserved");
    (14, Info "2048K" "2048K bytes"); (15, Info "Reserved" "Reserved") ].

Definition Packages : list (Z * string) :=
  [ (0, "24-pin"); (1, "32-pin"); (2, "48-pin");
    (3, "64-pin"); (4, "100-pi"); (5, "144-pin") ].

(** The local [package] is an integer code when the extended register was
    read and the string ["*** Unknown ***"] otherwise. *)
Inductive package_key :=
| PkgCode (code : Z)
| PkgText (s : string).

(** [Packages.get(package, "*** Reserved ***")]: the keys of [Packages] are
    integers, so a string key finds nothing. *)
Definition Packages_get (k : package_key) : string :=
  match k with
  | PkgCode c => dict_get Packages c "*** Reserved ***"
  | PkgText _ => "*** Reserved ***"
  end.

Record DeviceCapabilities := mkDeviceCapabilities {
  friendlyName : string;
  nvpType      : field;
  architecture : field;
  sramSize     : field;
  nvpSize0     : field;
  nvpSize1     : field;
  processor    : field;
  dc_version   : Z;
  ext          : bool;
  package      : string;
  lcd          : bool;
  usb          : bool;
  usbfull      : bool;
  aes          : bool
}.

Module Mask.
Definition EXT     : Z := 0x80000000.
Definition NVPTYP  : Z := 0x70000000.
Definition ARCH    : Z := 0x0ff00000.
Definition SRAMSIZ : Z := 0x000f0000.
Definition NVPSIZ2 : Z := 0x0000f000.
Definition NVPSIZ  : Z := 0x00000f00.
Definition EPROC   : Z := 0x000000e0.
Definition VERSION : Z := 0x0000001f.
Definition PACKAGE : Z := 0x07000000.
Definition LCD     : Z := 0x00000008.
Definition USBFULL : Z := 0x00000004.
Definition USB     : Z := 0x00000002.
Definition AES     : Z := 0x00000001.
End Mask.

(** ** Driver state and the monad of driver code *)

Section Driver.

Context {D : Type} `{Serial D}.

(** [sys.byteorder] of the machine the driver runs on. *)
Variable host : endian.

Record world := World {
  opened : bool;        (* Port.opened *)
  device : D            (* Port._port *)
}.

(** A run of driver code from a state: what it evaluates to (a raised
    exception or a value), the state it leaves, and the calls it made on
    the pyserial object, in order. *)
Record run (A : Type) := Run {
  result : exn + A;
  after  : world;
  trace  : list call
}.
Arguments Run {A}.
Arguments result {A}.
Arguments after {A}.
Arguments trace {A}.

Definition M (A : Type) : Type := world -> run A.

Definition ret {A} (a : A) : M A := fun w => Run (inr a) w [].

Definition raise {A} (e : exn) : M A := fun w => Run (inl e) w [].

Definition bind {A B} (m : M A) (k : A -> M B) : M B :=
  fun w =>
    let r := m w in
    match result r with
    | inl e => Run (inl e) (after r) (trace r)
    | inr a =>
        let r' := k a (after r) in
        Run (result r') (after r') (trace r ++ trace r')
    end.

Notation "x <- m ;; k" := (bind m (fun x => k))
  (at level 61, m at next level, right associativity).
Notation "m ;; k" := (bind m (fun _ => k))
  (at level 61, right associativity).

Definition on_serial (f : D -> D) (c : call) : M unit :=
  fun w => Run (inr tt) (World (opened w) (f (device w))) [c].

(** *** [class Port] *)

Definition Port_write (data : bytes) : M unit :=
  on_serial (ser_write data) (SerWrite data).

Definition Port_read (length : Z) : M bytes :=
  if length =? 0 then ret []
  else fun w =>
    let (data, d') := ser_read length (device w) in
    let w' := World (opened w) d' in
    if Nat.eqb (List.length data) 0
    then Run (inl (TimeoutError length (Z.of_nat (List.length data))))
             w' [SerRead length data]
    else Run (inr data) w' [SerRead length data].

Definition Port_flush : M unit :=
  on_serial ser_flushOutput SerFlushOutput ;;
  on_serial ser_flushInput SerFlushInput.

Definition Port_close : M unit :=
  fun w => if opened w
           then Run (inr tt) (World false (ser_close (device w))) [SerClose]
           else Run (inr tt) w [].

(** *** [class Samba] *)

Definition INTERACTIVE     : string := "T".
Definition NON_INTERACTIVE : string := "N".
Definition VERSION         : string := "V".
Definition WRITE_WORD      : string := "W".
Definition READ_WORD       : string := "w".
Definition WRITE_HALF_WORD : string := "H".
Definition READ_HALF_WORD  : string := "h".
Definition WRITE_OCTET     : string := "O".
Definition READ_OCTET      : string := "o".
Definition WRITE           : string := "S".
Definition READ            : string := "R".
Definition GO              : string := "G".

(** The frames, as the format strings of the source build them. *)

(** ["%s%s" % (cmd, TERM)] *)
Definition cmd_frame (cmd : string) : string := (cmd ++ TERM)%string.

(** ["%s%08X,%u%s" % (cmd, addr, dlen, TERM)] *)
Definition read_unit_frame (cmd : string) (addr dlen : Z) : string :=
  (cmd ++ Fmt.X0 8 addr ++ "," ++ Fmt.u dlen ++ TERM)%string.

(** ["%s%08X,%s%s" % (cmd, addr, data, TERM)] *)
Definition write_unit_frame (cmd : string) (addr : Z) (data : string) : string :=
  (cmd ++ Fmt.X0 8 addr ++ "," ++ data ++ TERM)%string.

(** ["%s%08X,%08X%s" % (cmd, addr, length, TERM)] *)
Definition bulk_frame (cmd : string) (addr length : Z) : string :=
  (cmd ++ Fmt.X0 8 addr ++ "," ++ Fmt.X0 8 length ++ TERM)%string.

Definition writeCmd (cmd : string) : M unit :=
  Port_write (str_bytes (cmd_frame cmd)).

(** The conditional expression that picks the [struct] format. *)
Definition unit_format (dlen : Z) : option struct_fmt :=
  if dlen =? 4 then Some Fmt_ltL
  else if dlen =? 2 then Some Fmt_H
  else if dlen =? 1 then Some Fmt_B
  else None.

Definition _readUnit (cmd : string) (addr dlen : Z) : M Z :=
  Port_write (str_bytes (read_unit_frame cmd addr dlen)) ;;
  data <- Port_read dlen ;;
  match struct_unpack host (unit_format dlen) data with
  | inl e => raise e
  | inr v => ret v
  end.

(** The [MASKS] table: mask and the width of its ["%0wX"] format. *)
Definition MASKS (dlen : Z) : option (Z * nat) :=
  if dlen =? 1 then Some (0x000000ff, 2%nat)
  else if dlen =? 2 then Some (0x0000ffff, 4%nat)
  else if dlen =? 4 then Some (0xffffffff, 8%nat)
  else None.

Definition _writeUnit (cmd : string) (addr value dlen : Z) : M unit :=
  match MASKS dlen with
  | None => raise (KeyError dlen)
  | Some (mask, width) =>
      let data := Fmt.X0 width (Z.land value mask) in
      Port_write (str_bytes (write_unit_frame cmd addr data))
  end.

(** [version] has no [return]: it evaluates to [None]. *)
Definition version : M pyval :=
  writeCmd VERSION ;; ret PyNone.

Definition readLong (addr : Z) : M Z := _readUnit READ_WORD addr 4.
Definition writeWord (addr w : Z) : M unit := _writeUnit WRITE_HALF_WORD addr w 2.
Definition readWord (addr : Z) : M Z := _readUnit READ_HALF_WORD addr 2.
Definition writeByte (addr b : Z) : M unit := _writeUnit WRITE_OCTET addr b 1.
Definition readByte (addr : Z) : M Z := _readUnit READ_OCTET addr 1.

(** [_write]; its [print] goes to the console, not to the port. *)
Definition _write (addr length : Z) (data : bytes) : M unit :=
  Port_write (str_bytes (bulk_frame WRITE addr length)) ;;
  Port_flush ;;
  Port_write data ;;
  Port_flush.

(** The [for l in range(loops)] of [sendFile], carrying the three
    variables the body updates. *)
Fixpoint sendFile_loop (loops : nat) (data : bytes)
    (addrOffset dataOffsetFrom dataOffsetTo : Z) : M (Z * Z * Z) :=
  match loops with
  | O => ret (addrOffset, dataOffsetFrom, dataOffsetTo)
  | S loops' =>
      let dslice := slice data dataOffsetFrom dataOffsetTo in
      _write addrOffset MAX_PAYLOAD dslice ;;
      let addrOffset := addrOffset + MAX_PAYLOAD in
      let dataOffsetFrom := dataOffsetTo in
      let dataOffsetTo := dataOffsetFrom + MAX_PAYLOAD in
      sendFile_loop loops' data addrOffset dataOffsetFrom dataOffsetTo
  end.

Definition sendFile (addr : Z) (data : bytes) : M unit :=
  let length := Z.of_nat (List.length data) in
  let loops := length / MAX_PAYLOAD in
  let bytesRemaining := length mod MAX_PAYLOAD in
  st <- sendFile_loop (Z.to_nat loops) data addr 0 MAX_PAYLOAD ;;
  let '(addrOffset, dataOffsetFrom, _) := st in
  if bytesRemaining =? 0 then ret tt
  else
    let dslice := slice data dataOffsetFrom (dataOffsetFrom + bytesRemaining) in
    _write addrOffset bytesRemaining dslice.

(** The [for l in range(loops)] of [receiveFile]. *)
Fixpoint receiveFile_loop (loops : nat) (length offset : Z) (result : bytes)
  : M (Z * bytes) :=
  match loops with
  | O => ret (offset, result)
  | S loops' =>
      Port_write (str_bytes (bulk_frame READ offset MAX_PAYLOAD)) ;;
      data <- Port_read length ;;
      receiveFile_loop loops' length (offset + MAX_PAYLOAD) (result ++ data)
  end.

Definition receiveFile (addr length : Z) : M bytes :=
  let loops := length / MAX_PAYLOAD in
  let bytesRemaining := length mod MAX_PAYLOAD in
  st <- receiveFile_loop (Z.to_nat loops) length addr [] ;;
  let '(offset, result) := st in
  if bytesRemaining =? 0 then ret result
  else
    Port_write (str_bytes (bulk_frame READ offset bytesRemaining)) ;;
    data <- Port_read bytesRemaining ;;
    ret (result ++ data).

Definition go (addr : Z) : M unit :=
  Port_write (str_bytes (GO ++ Fmt.X0 8 addr)%string) ;;
  Port_flush.

Definition chipId : M Z := readLong CHIP_ID_ADDR.
Definition exId : M Z := readLong EX_ID_ADDR.

(** [chipInfo]: everything after [chipId = self.chipId()] up to the [if]
    is pure; the [if ext] branch is the only further use of the port. *)
Definition chipInfo : M DeviceCapabilities :=
  chipId <- chipId ;;
  let friendlyName := dict_get FriendlyNames chipId "*** Unknown ***" in
  let ext := Z.land chipId Mask.EXT =? Mask.EXT in
  let nvptyp := Z.shiftr (Z.land chipId Mask.NVPTYP) 28 in
  let arch := Z.shiftr (Z.land chipId Mask.ARCH) 20 in
  let sramsiz := Z.shiftr (Z.land chipId Mask.SRAMSIZ) 16 in
  let nvpsiz2 := Z.shiftr (Z.land chipId Mask.NVPSIZ2) 12 in
  let nvpsiz := Z.shiftr (Z.land chipId Mask.NVPSIZ) 8 in
  let eproc := Z.shiftr (Z.land chipId Mask.EPROC) 5 in
  let version := Z.land chipId Mask.VERSION in
  ext_fields <-
    (if ext then
       exid <- exId ;;
       ret (PkgCode (Z.shiftr (Z.land exid Mask.PACKAGE) 24),
            Z.land exid Mask.LCD =? Mask.LCD,
            Z.land exid Mask.USBFULL =? Mask.USBFULL,
            Z.land exid Mask.USB =? Mask.USB,
            Z.land exid Mask.AES =? Mask.AES)
     else
       ret (PkgText "*** Unknown ***", false, false, false, false)) ;;
  let '(package, lcd, usbfull, usb, aes) := ext_fields in
  ret (mkDeviceCapabilities
         friendlyName
         (dict_get NvpTypes nvptyp (Text "*** Unknown ***"))
         (dict_get Archs arch (Text "*** Unknown ***"))
         (dict_get SRamSizes sramsiz (Text "*** Unknown ***"))
         (dict_get NvpSizes nvpsiz (Text "*** Unknown ***"))
         (dict_get NvpSiz2s nvpsiz2 (Text "*** Unknown ***"))
         (dict_get EProcs eproc (Text "*** Unknown ***"))
         version ext (Packages_get package) lcd usb usbfull aes).

End Driver.

Arguments world D : clear implicits.
Arguments run D A : clear implicits.
Arguments M D A : clear implicits.
Arguments Run {D A}.
Arguments result {D A}.
Arguments after {D A}.
Arguments trace {D A}.

(** ** Concrete serial devices *)

(** A line on which nothing ever arrives: every read times out empty. *)
Inductive silent := Silent.

#[export] Instance silent_serial : Serial silent := {
  ser_write _ d := d;
  ser_read _ d := ([], d);
  ser_flushOutput d := d;
  ser_flushInput d := d;
  ser_close d := d
}.

(** A scripted line: the state is the list of replies still to come, one
    per read; a read of [n] bytes takes at most [n] bytes of the next
    reply, and an exhausted script is a silent line. *)
#[export] Instance scripted_serial : Serial (list bytes) := {
  ser_write _ d := d;
  ser_read n d :=
    match d with
    | [] => ([], [])
    | r :: d' => (firstn (Z.to_nat n) r, d')
    end;
  ser_flushOutput d := d;
  ser_flushInput d := d;
  ser_close d := d
}.

Definition start {D : Type} (d : D) : world D := World true d.

(** ** Reading a trace *)

Definition written (cs : list call) : list bytes :=
  flat_map (fun c => match c with SerWrite d => [d] | _ => [] end) cs.

Definition read_sizes (cs : list call) : list Z :=
  flat_map (fun c => match c with SerRead n _ => [n] | _ => [] end) cs.

Definition read_data (cs : list call) : list bytes :=
  flat_map (fun c => match c with SerRead _ d => [d] | _ => [] end) cs.

(** ** The chunking policy, as the specification words it

    A transfer of [L] bytes from [addr] is cut into [ceil(L / MAX_PAYLOAD)]
    chunks; each chunk takes at most [MAX_PAYLOAD] of what remains and
    starts where the previous one ended. *)

Definition ceil_div (a b : Z) : Z := (a + b - 1) / b.

Fixpoint chunk_plan_from (n : nat) (addr remaining : Z) : list (Z * Z) :=
  match n with
  | O => []
  | S n' =>
      let len := Z.min MAX_PAYLOAD remaining in
      (addr, len) :: chunk_plan_from n' (addr + len) (remaining - len)
  end.

Definition chunk_plan (addr L : Z) : list (Z * Z) :=
  chunk_plan_from (Z.to_nat (ceil_div L MAX_PAYLOAD)) addr L.

(** The calls one chunk of a bulk write makes: command, flush, payload,
    flush ([Port.flush] is [flushOutput] then [flushInput]). *)
Definition write_chunk_calls (base : Z) (data : bytes) (chunk : Z * Z)
  : list call :=
  let (a, n) := chunk in
  [ SerWrite (str_bytes (bulk_frame WRITE a n));
    SerFlushOutput; SerFlushInput;
    SerWrite (slice data (a - base) (a - base + n));
    SerFlushOutput; SerFlushInput ].

Definition read_chunk_frame (chunk : Z * Z) : bytes :=
  str_bytes (bulk_frame READ (fst chunk) (snd chunk)).

Definition write_chunk_frame (chunk : Z * Z) : bytes :=
  str_bytes (bulk_frame WRITE (fst chunk) (snd chunk)).


Definition unit_size (dlen : Z) : Prop := dlen = 1 \/ dlen = 2 \/ dlen = 4.

(** The chunks the loops of [sendFile] and [receiveFile] go through:
    [n] chunks of [MAX_PAYLOAD], [MAX_PAYLOAD] apart. *)
Fixpoint full_chunks (n : nat) (addr : Z) : list (Z * Z) :=
  match n with
  | O => []
  | S n' => (addr, MAX_PAYLOAD) :: full_chunks n' (addr + MAX_PAYLOAD)
  end.

Definition last_chunk (addr L : Z) : list (Z * Z) :=
  if L mod MAX_PAYLOAD =? 0 then []
  else [(addr + MAX_PAYLOAD * (L / MAX_PAYLOAD), L mod MAX_PAYLOAD)].

(** The state in which [_readUnit] reads: the command has been written. *)
Definition after_command {D : Type} `{Serial D}
    (cmd : string) (addr dlen : Z) (w : world D) : D :=
  ser_write (str_bytes (read_unit_frame cmd addr dlen)) (device w).

(** A read that came back with nothing. *)
Definition empty_read (c : call) : bool :=
  match c with SerRead _ [] => true | _ => false end.


(** The frame of the version query: [V#] and a line feed. *)
Definition frame_V : string := String "V" (String "#" (String "010" EmptyString)).

(** ** Reading frames and traces back *)

(** The value of a string of hexadecimal digits, as the monitor at the other
    end of the line reads a field (Python's [int(s, 16)] on such a string). *)
Definition hex_value (c : ascii) : Z :=
  let n := Z.of_nat (nat_of_ascii c) in
  if (48 <=? n) && (n <=? 57) then n - 48
  else if (65 <=? n) && (n <=? 70) then n - 55
  else 0.

Definition parse_hex (s : string) : Z :=
  fold_left (fun acc c => acc * 16 + hex_value c) (list_ascii_of_string s) 0.

(** Every second item of a list, starting with the first or the second. *)
Fixpoint even_items {A : Type} (l : list A) : list A :=
  match l with
  | x :: _ :: l' => x :: even_items l'
  | [x] => [x]
  | [] => []
  end.

Fixpoint odd_items {A : Type} (l : list A) : list A :=
  match l with
  | _ :: x :: l' => x :: odd_items l'
  | _ => []
  end.

(** In the trace of a bulk write the writes alternate: command, payload. *)
Definition payloads (cs : list call) : list bytes := odd_items (written cs).

Definition is_write (c : call) : bool :=
  match c with SerWrite _ => true | _ => false end.

(** ** [atenka-cl.py]: the peripheral modules *)

Module Cl.

Definition GPIO : Z := 0x400E1000.
Definition FLASHCALW : Z := 0x400A0000.

Definition ACC_RW : Z := 0.
Definition ACC_RO : Z := 1.
Definition ACC_WO : Z := 2.

(** [Register = namedtuple('Register', 'offset description decoder')] *)
Record Register := mkRegister {
  offset      : Z;
  description : string;
  decoder     : option string
}.

(** [GPIORegister = namedtuple('Register',
      'offset description decoder access extInterface')] *)
Module GPIORegister.
Record t := mk {
  offset       : Z;
  description  : string;
  decoder      : option string;
  access       : Z;
  extInterface : bool
}.
End GPIORegister.

(** What code that uses only [offset], [description] and [decoder] sees of
    a [GPIORegister]. *)
Definition as_Register (r : GPIORegister.t) : Register :=
  mkRegister (GPIORegister.offset r) (GPIORegister.description r)
             (GPIORegister.decoder r).

(** The exceptions of the module layer; [KeyError_str] is the built-in
    [KeyError] of a subscript with a string key. *)
Inductive cl_error :=
| RegisterNotDefinedError (reg : string)
| InterfaceNotSupportedError (reg : string)
| KeyError_str (key : string).

(** A dict display with string keys: a later entry replaces an earlier one
    with the same key. *)
Fixpoint str_lookup {V : Type} (d : list (string * V)) (k : string) : option V :=
  match d with
  | [] => None
  | (k', v) :: d' =>
      match str_lookup d' k with
      | Some v' => Some v'
      | None => if String.eqb k' k then Some v else None
      end
  end.

(** [k in d] *)
Definition str_mem {V : Type} (d : list (string * V)) (k : string) : bool :=
  match str_lookup d k with Some _ => true | None => false end.

Module ModGPIO.

Definition NAME : string := "GPIO".
Definition BASE_ADDRESS : Z := 0x400E1000.

Definition PA : Z := 0.
Definition PB : Z := 1.
Definition PC : Z := 2.

Definition REGISTER_BLOCK_SIZE : Z := 0x0200.

Definition SET_OFFSET : Z := 0x04.
Definition CLEAR_OFFSET : Z := 0x08.
Definition TOGGLE_OFFSET : Z := 0xc.

Definition REGISTERS : list (string * GPIORegister.t) :=
  [ ("GPER",      GPIORegister.mk 0x000 "GPIO Enable Register"                 None ACC_RW true);
    ("PMR0",      GPIORegister.mk 0x010 "Peripheral Mux Register 0"            None ACC_RW true);
    ("PMR1",      GPIORegister.mk 0x020 "Peripheral Mux Register 1"            None ACC_RW true);
    ("PMR2",      GPIORegister.mk 0x030 "Peripheral Mux Register 2"            None ACC_RW true);
    ("ODER",      GPIORegister.mk 0x040 "Output Driver Enable Register"        None ACC_RW true);
    ("OVR",       GPIORegister.mk 0x050 "Output Value Register"                None ACC_RW true);
    ("PVR",       GPIORegister.mk 0x060 "Pin Value Register"                   None ACC_RO false);
    ("PUER",      GPIORegister.mk 0x070 "Pull-up Enable Register"              None ACC_RW true);
    ("PDER",      GPIORegister.mk 0x080 "Pull-down Enable Register"            None ACC_RW true);
    ("IER",       GPIORegister.mk 0x090 "Interrupt Enable Register"            None ACC_RW true);
    ("IMR0",      GPIORegister.mk 0x0A0 "Interrupt Mode Register 0"            None ACC_RW true);
    ("IMR1",      GPIORegister.mk 0x0B0 "Interrupt Mode Register 1"            None ACC_RW true);
    ("GFER",      GPIORegister.mk 0x0C0 "Glitch Filter Enable Register"        None ACC_RW true);
    ("IFR",       GPIORegister.mk 0x0D0 "Interrupt Flag Register"              None ACC_RO true);
    ("ODCR0",     GPIORegister.mk 0x100 "Output Driving Capability Register 0" None ACC_RW true);
    ("ODCR1",     GPIORegister.mk 0x110 "Output Driving Capability Register 1" None ACC_RW true);
    ("OSRR0",     GPIORegister.mk 0x130 "Output Slew Rate Register 0"          None ACC_RW true);
    ("OSRR0T",    GPIORegister.mk 0x13C "Output Slew Rate Register 0"          None ACC_WO true);
    ("STER",      GPIORegister.mk 0x160 "Schmitt Trigger Enable Register"      None ACC_RW true);
    ("EVER",      GPIORegister.mk 0x180 "Event Enable Register"                None ACC_RW true);
    ("PARAMETER", GPIORegister.mk 0x1F8 "Parameter Register"                   None ACC_RO false);
    ("VERSION",   GPIORegister.mk 0x1FC "Version Register"                     None ACC_RO false) ].

Definition _baseAddress (instance : Z) : Z :=
  BASE_ADDRESS + (instance * REGISTER_BLOCK_SIZE).

Definition _namecheck (reg : string) : cl_error + unit :=
  if negb (str_mem REGISTERS reg)
  then inl (RegisterNotDefinedError reg)
  else inr tt.

Definition _extInterfaceCheck (reg : string) : cl_error + unit :=
  match str_lookup REGISTERS reg with
  | None => inl (KeyError_str reg)
  | Some r =>
      if negb (GPIORegister.extInterface r)
      then inl (InterfaceNotSupportedError reg)
      else inr tt
  end.

Section Methods.

Context {D : Type} `{Serial D}.
Variable host : endian.

(** The value of a method is either an exception of this layer or what the
    method returns; an exception of the driver aborts the run as before. *)
Definition read (inst : Z) (reg : string) : M D (cl_error + Z) :=
  match _namecheck reg with
  | inl e => ret (inl e)
  | inr _ =>
      match str_lookup REGISTERS reg with
      | None => ret (inl (KeyError_str reg))
      | Some r =>
          let baseAddr := _baseAddress inst + GPIORegister.offset r in
          bind (readLong host baseAddr) (fun v => ret (inr v))
      end
  end.

Definition write (inst : Z) (reg : string) (value : Z) : M D (cl_error + unit) :=
  match _namecheck reg with
  | inl e => ret (inl e)
  | inr _ =>
      let baseAddr := _baseAddress inst in
      ret (inr tt)
  end.

(** [set], [clear] and [toggle] have the same body. *)
Definition set_clear_toggle (inst : Z) (reg : string) (mask : Z)
  : M D (cl_error + unit) :=
  match _namecheck reg with
  | inl e => ret (inl e)
  | inr _ =>
      match _extInterfaceCheck reg with
      | inl e => ret (inl e)
      | inr _ =>
          let baseAddr := _baseAddress inst in
          ret (inr tt)
      end
  end.

Definition set := set_clear_toggle.
Definition clear := set_clear_toggle.
Definition toggle := set_clear_toggle.

End Methods.

End ModGPIO.

Module ModFlash.

Definition NAME : string := "FLASHCALW".
Definition BASE_ADDRESS : Z := 0x400A0000.

Definition REGISTERS : list (string * Register) :=
  [ ("FCR",     mkRegister 0x00  "Flash Control Register" None);
    ("FCMD",    mkRegister 0x04  "Flash Command Register" None);
    ("FSR",     mkRegister 0x08  "Flash Status Register" None);
    ("FPR",     mkRegister 0x0C  "Flash Parameter Register" (Some "flashParameters"));
    ("FVR",     mkRegister 0x10  "Flash Version Register" None);
    ("FGPFRHI", mkRegister 0x14  "Flash General Purpose Fuse Register Hi" None);
    ("FGPFRLO", mkRegister 0x18  "Flash General Purpose Fuse Register Lo" None);
    ("CTRL",    mkRegister 0x408 "PicoCache Control Register" None);
    ("SR",      mkRegister 0x40C "PicoCache Status Register" None);
    ("MAINT0",  mkRegister 0x420 "PicoCache Maintenance Register 0" None);
    ("MAINT1",  mkRegister 0x424 "PicoCache Maintenance Register 1" None);
    ("MCFG",    mkRegister 0x428 "PicoCache Monitor Configuration Register" None);
    ("MEN",     mkRegister 0x42C "PicoCache Monitor Enable Register" None);
    ("MCTRL",   mkRegister 0x430 "PicoCache Monitor Control Register" None);
    ("MSR",     mkRegister 0x434 "PicoCache Monitor Status Register" None);
    ("PVR",     mkRegister 0x4FC "PicoCache Version Register" None) ].

Definition PSZ : list (Z * string) :=
  [ (0, "32 Byte"); (1, "64 Byte"); (2, "128 Byte"); (3, "256 Byte");
    (4, "512 Byte"); (5, "1024 Byte"); (6, "2048 Byte"); (7, "4096 Byte") ].

Definition FSZ : list (Z * string) :=
  [ (0, "4 Kbyte ");   (8, "192 Kbyte");
    (1, "8 Kbyte");    (9, "256 Kbyte");
    (2, "16 Kbyte");   (10, "384 Kbyte");
    (3, "32 Kbyte");   (11, "512 Kbyte");
    (4, "48 Kbyte");   (12, "768 Kbyte");
    (5, "64 Kbyte");   (13, "1024 Kbyte");
    (6, "96 Kbyte");   (14, "2048 Kbyte");
    (7, "128 Kbyte");  (15, "Reserved") ].

(** [flashParameters] only prints; its value here is the list of the lines
    it prints ([print a, b] puts one space between [a] and [b]). *)
Definition flashParameters (value : Z) : list string :=
  let fsz := Z.land value 0x000000ff in
  let psz := Z.shiftr (Z.land value 0x00000700) 8 in
  [ ("    Flash Size     :" ++ " " ++ dict_get FSZ fsz "Reserved")%string;
    ("    Flash Page Size:" ++ " " ++ dict_get PSZ psz "*** UNKNOWN ***")%string;
    "" ].

End ModFlash.

(** What [dumpModule] uses of a module object. *)
Record PeripheralModule := mkModule {
  NAME         : string;
  BASE_ADDRESS : Z;
  REGISTERS    : list (string * Register)   (* [REGISTERS.items()], in dict order *)
}.

Definition gpio : PeripheralModule :=
  mkModule ModGPIO.NAME ModGPIO.BASE_ADDRESS
           (map (fun kr => (fst kr, as_Register (snd kr))) ModGPIO.REGISTERS).

Definition flash : PeripheralModule :=
  mkModule ModFlash.NAME ModFlash.BASE_ADDRESS ModFlash.REGISTERS.

(** [sorted(items, key = lambda x: x[1][0])]: a stable sort on the offset. *)
Fixpoint insert_by_offset (x : string * Register) (l : list (string * Register))
  : list (string * Register) :=
  match l with
  | [] => [x]
  | y :: l' =>
      if offset (snd x) <=? offset (snd y) then x :: l
      else y :: insert_by_offset x l'
  end.

Definition sorted_by_offset (items : list (string * Register))
  : list (string * Register) :=
  fold_right insert_by_offset [] items.

(** The order [sorted] puts the items in. *)
Definition by_offset (a b : string * Register) : Prop :=
  offset (snd a) <= offset (snd b).


Section DumpModule.

Context {D : Type} `{Serial D}.
Variable host : endian.

(** The loop of [dumpModule], as far as the port goes: one word read per
    register.  What it prints, and what a register's decoder prints, goes
    to the console. *)
Fixpoint dumpModule_loop (base : Z) (items : list (string * Register)) : M D unit :=
  match items with
  | [] => ret tt
  | (k, reg) :: rest =>
      bind (readLong host (base + offset reg))
           (fun value => dumpModule_loop base rest)
  end.

Definition dumpModule (mod_ : PeripheralModule) : M D unit :=
  dumpModule_loop (BASE_ADDRESS mod_) (sorted_by_offset (REGISTERS mod_)).

End DumpModule.

End Cl.




(** * Properties *)

(** ** Formatting *)

Module FmtFacts.
Import Fmt.

Lemma length_app_string (a b : string) :
  String.length (a ++ b)%string = (String.length a + String.length b)%nat.
Proof. induction a as [|c a IH]; simpl; [reflexivity | now rewrite IH]. Qed.

Lemma length_of_list_ascii (l : list ascii) :
  String.length (string_of_list_ascii l) = List.length l.
Proof. induction l as [|c l IH]; simpl; [reflexivity | now rewrite IH]. Qed.

Lemma length_zeros (n : nat) : String.length (zeros n) = n.
Proof. unfold zeros. now rewrite length_of_list_ascii, repeat_length. Qed.

Lemma length_render (ds : list Z) : String.length (render ds) = List.length ds.
Proof. unfold render. now rewrite length_of_list_ascii, length_map. Qed.

(** A number below [16^w] has at most [w] hexadecimal digits. *)
Lemma digits_rev_length (fuel : nat) :
  forall (w : nat) (z : Z),
    (1 <= w)%nat -> 0 <= z < 16 ^ Z.of_nat w ->
    (List.length (digits_rev 16 fuel z) <= w)%nat.
Proof.
  induction fuel as [|f IH]; intros w z Hw Hz; simpl; [lia|].
  destruct (z <? 16) eqn:E.
  - simpl. lia.
  - apply Z.ltb_ge in E.
    destruct w as [|[|w']]; [lia | simpl in Hz; lia |].
    simpl List.length.
    apply le_n_S, IH; [lia|].
    replace (Z.of_nat (S (S w'))) with (Z.succ (Z.of_nat (S w'))) in Hz by lia.
    rewrite Z.pow_succ_r in Hz by lia.
    split; [apply Z.div_pos; lia|].
    apply Z.div_lt_upper_bound; lia.
Qed.

(** The digits denote the number. *)
Lemma digits_rev_value (base : Z) (fuel : nat) :
  2 <= base ->
  forall z, 0 <= z < 2 ^ Z.of_nat fuel ->
    fold_right (fun d acc => d + base * acc) 0 (digits_rev base fuel z) = z.
Proof.
  intros Hb. induction fuel as [|f IH]; intros z Hz.
  - simpl in *. lia.
  - simpl. destruct (z <? base) eqn:E; simpl; [lia|].
    apply Z.ltb_ge in E.
    rewrite IH.
    + rewrite (Z.div_mod z base) at 3 by lia. lia.
    + replace (Z.of_nat (S f)) with (Z.succ (Z.of_nat f)) in Hz by lia.
      rewrite Z.pow_succ_r in Hz by lia.
      split; [apply Z.div_pos; lia|].
      apply Z.div_lt_upper_bound; [lia|]. nia.
Qed.

Lemma value_rev (base : Z) (ds : list Z) :
  value base (rev ds) = fold_right (fun d acc => d + base * acc) 0 ds.
Proof.
  unfold value. rewrite <- fold_left_rev_right, rev_involutive.
  induction ds as [|d ds IH]; simpl; [reflexivity|]. rewrite IH. lia.
Qed.

Lemma digits_value (base z : Z) :
  2 <= base -> 0 <= z -> value base (digits base z) = z.
Proof.
  intros Hb Hz. unfold digits. rewrite value_rev.
  apply digits_rev_value; [assumption|].
  split; [assumption|].
  destruct (Z.eq_dec z 0) as [->|Hne]; [simpl; lia|].
  rewrite Nat2Z.inj_succ, Z2Nat.id by apply Z.log2_nonneg.
  apply Z.log2_spec. lia.
Qed.

(** ["%0wX"] of a number below [16^w] is exactly [w] characters wide. *)
Lemma X0_width (w : nat) (z : Z) :
  (1 <= w)%nat -> 0 <= z < 16 ^ Z.of_nat w ->
  String.length (X0 w z) = w.
Proof.
  intros Hw Hz. unfold X0, pad0, sign_of.
  destruct (z <? 0) eqn:E; [apply Z.ltb_lt in E; lia|].
  rewrite Z.abs_eq by lia.
  simpl String.length at 2. rewrite !length_app_string, length_zeros.
  simpl String.length at 1.
  assert (String.length (render (digits 16 z)) <= w)%nat.
  { rewrite length_render. unfold digits. rewrite length_rev.
    now apply digits_rev_length. }
  lia.
Qed.

End FmtFacts.

(** ** Sequencing *)

Section Sequencing.

Context {D : Type} `{Serial D} {A B : Type}.

Lemma bind_ok (m : M D A) (k : A -> M D B) (w : world D) (a : A) :
  result (m w) = inr a ->
  result (bind m k w) = result (k a (after (m w))) /\
  trace (bind m k w) = trace (m w) ++ trace (k a (after (m w))) /\
  after (bind m k w) = after (k a (after (m w))).
Proof. intros E. unfold bind. rewrite E. repeat split. Qed.

Lemma bind_raise (m : M D A) (k : A -> M D B) (w : world D) (e : exn) :
  result (m w) = inl e ->
  result (bind m k w) = inl e /\
  trace (bind m k w) = trace (m w) /\
  after (bind m k w) = after (m w).
Proof. intros E. unfold bind. rewrite E. repeat split. Qed.

End Sequencing.

(** ** Single-unit access *)

Section UnitAccess.

Context {D : Type} `{Serial D}.
Variable host : endian.

Lemma unit_size_cases (dlen : Z) :
  unit_size dlen \/ (dlen <> 1 /\ dlen <> 2 /\ dlen <> 4).
Proof. unfold unit_size. lia. Qed.

Lemma MASKS_unit (dlen : Z) :
  unit_size dlen ->
  MASKS dlen = Some (Z.ones (8 * dlen), Z.to_nat (2 * dlen)).
Proof. intros [->|[->| ->]]; reflexivity. Qed.

Lemma MASKS_other (dlen : Z) : ~ unit_size dlen -> MASKS dlen = None.
Proof.
  intros Hn. unfold MASKS, unit_size in *.
  destruct (dlen =? 1) eqn:E1; [apply Z.eqb_eq in E1; lia|].
  destruct (dlen =? 2) eqn:E2; [apply Z.eqb_eq in E2; lia|].
  destruct (dlen =? 4) eqn:E4; [apply Z.eqb_eq in E4; lia|].
  reflexivity.
Qed.

Lemma unit_format_unit (dlen : Z) :
  unit_size dlen ->
  exists f, unit_format dlen = Some f /\ Z.of_nat (calcsize f) = dlen.
Proof.
  intros [->|[->| ->]];
    [exists Fmt_B | exists Fmt_H | exists Fmt_ltL]; split; reflexivity.
Qed.

Lemma unit_format_other (dlen : Z) : ~ unit_size dlen -> unit_format dlen = None.
Proof.
  intros Hn. unfold unit_format, unit_size in *.
  destruct (dlen =? 4) eqn:E4; [apply Z.eqb_eq in E4; lia|].
  destruct (dlen =? 2) eqn:E2; [apply Z.eqb_eq in E2; lia|].
  destruct (dlen =? 1) eqn:E1; [apply Z.eqb_eq in E1; lia|].
  reflexivity.
Qed.

(** What [_writeUnit] does for a unit size: one write of one frame. *)
Lemma _writeUnit_unit (cmd : string) (addr value dlen : Z) (w : world D) :
  unit_size dlen ->
  _writeUnit cmd addr value dlen w =
  Port_write
    (str_bytes (write_unit_frame cmd addr
       (Fmt.X0 (Z.to_nat (2 * dlen)) (value mod 2 ^ (8 * dlen))))) w.
Proof.
  intros Hu. unfold _writeUnit. rewrite (MASKS_unit _ Hu).
  rewrite Z.land_ones by (destruct Hu as [->|[->| ->]]; lia).
  reflexivity.
Qed.

(** The three ways [_readUnit] can go once its read came back. *)
Lemma _readUnit_cases (cmd : string) (addr dlen : Z) (w : world D) :
  dlen <> 0 ->
  let data := fst (ser_read dlen (after_command cmd addr dlen w)) in
  trace (_readUnit host cmd addr dlen w) =
    [SerWrite (str_bytes (read_unit_frame cmd addr dlen)); SerRead dlen data] /\
  result (_readUnit host cmd addr dlen w) =
    match data with
    | [] => inl (TimeoutError dlen 0)
    | _ :: _ => struct_unpack host (unit_format dlen) data
    end.
Proof.
  intros Hd. unfold after_command, _readUnit, bind, Port_write, on_serial, Port_read.
  apply Z.eqb_neq in Hd. rewrite Hd. simpl.
  destruct (ser_read dlen _) as [data d'] eqn:E. simpl.
  destruct data as [|b data]; simpl; [split; reflexivity|].
  destruct (struct_unpack host (unit_format dlen) (b :: data)); simpl;
    split; reflexivity.
Qed.

Lemma _readUnit_zero (cmd : string) (addr : Z) (w : world D) :
  result (_readUnit host cmd addr 0 w) = inl TypeError.
Proof. reflexivity. Qed.

End UnitAccess.

(** ** Chunk arithmetic *)

Lemma ceil_div_split (L : Z) :
  ceil_div L MAX_PAYLOAD =
  L / MAX_PAYLOAD + (if L mod MAX_PAYLOAD =? 0 then 0 else 1).
Proof.
  unfold ceil_div, MAX_PAYLOAD.
  pose proof (Z.div_mod L 4000 ltac:(lia)) as E.
  pose proof (Z.mod_pos_bound L 4000 ltac:(lia)) as B.
  destruct (L mod 4000 =? 0) eqn:Z0.
  - apply Z.eqb_eq in Z0. symmetry.
    apply Z.div_unique with (r := 3999); lia.
  - apply Z.eqb_neq in Z0. symmetry.
    apply Z.div_unique with (r := L mod 4000 - 1); lia.
Qed.

Lemma chunk_plan_from_full (n m : nat) :
  forall addr remaining,
    MAX_PAYLOAD * Z.of_nat n <= remaining ->
    chunk_plan_from (n + m) addr remaining =
    full_chunks n addr ++
    chunk_plan_from m (addr + MAX_PAYLOAD * Z.of_nat n)
                      (remaining - MAX_PAYLOAD * Z.of_nat n).
Proof.
  induction n as [|n IH]; intros addr remaining Hr.
  - change (Z.of_nat 0) with 0. rewrite Z.mul_0_r, Z.add_0_r, Z.sub_0_r. reflexivity.
  - cbn [Nat.add chunk_plan_from full_chunks app].
    unfold MAX_PAYLOAD in *.
    rewrite Z.min_l by lia. f_equal.
    rewrite IH by lia. f_equal. f_equal; lia.
Qed.

(** The specification's plan is the loop's full chunks followed by the
    remainder chunk, when there is one. *)
Lemma chunk_plan_split (addr L : Z) :
  0 <= L ->
  chunk_plan addr L =
  full_chunks (Z.to_nat (L / MAX_PAYLOAD)) addr ++ last_chunk addr L.
Proof.
  intros HL. unfold chunk_plan, last_chunk.
  rewrite ceil_div_split.
  pose proof (Z.div_mod L MAX_PAYLOAD ltac:(unfold MAX_PAYLOAD; lia)) as E.
  pose proof (Z.mod_pos_bound L MAX_PAYLOAD ltac:(unfold MAX_PAYLOAD; lia)) as B.
  assert (Hq : 0 <= L / MAX_PAYLOAD) by (apply Z.div_pos; unfold MAX_PAYLOAD; lia).
  assert (Hfull : MAX_PAYLOAD * Z.of_nat (Z.to_nat (L / MAX_PAYLOAD)) <= L)
    by (rewrite Z2Nat.id by lia; lia).
  destruct (L mod MAX_PAYLOAD =? 0) eqn:Z0.
  - rewrite Z.add_0_r.
    replace (Z.to_nat (L / MAX_PAYLOAD))
      with (Z.to_nat (L / MAX_PAYLOAD) + 0)%nat at 1 by lia.
    rewrite chunk_plan_from_full by exact Hfull. reflexivity.
  - apply Z.eqb_neq in Z0.
    replace (Z.to_nat (L / MAX_PAYLOAD + 1))
      with (Z.to_nat (L / MAX_PAYLOAD) + 1)%nat by lia.
    rewrite chunk_plan_from_full by exact Hfull.
    rewrite Z2Nat.id by lia. cbn [chunk_plan_from].
    rewrite Z.min_r by lia.
    do 3 f_equal. lia.
Qed.






(** ** Bulk transfer *)

Section Bulk.

Context {D : Type} `{Serial D}.

Lemma _write_run (addr length : Z) (data : bytes) (w : world D) :
  result (_write addr length data w) = inr tt /\
  trace (_write addr length data w) =
    [ SerWrite (str_bytes (bulk_frame WRITE addr length));
      SerFlushOutput; SerFlushInput;
      SerWrite data;
      SerFlushOutput; SerFlushInput ].
Proof. split; reflexivity. Qed.

Lemma sendFile_loop_run (n : nat) (data : bytes) :
  forall (addr from : Z) (w : world D),
    let r := sendFile_loop n data addr from (from + MAX_PAYLOAD) w in
    result r = inr (addr + MAX_PAYLOAD * Z.of_nat n,
                    from + MAX_PAYLOAD * Z.of_nat n,
                    from + MAX_PAYLOAD * Z.of_nat n + MAX_PAYLOAD) /\
    trace r = flat_map (write_chunk_calls (addr - from) data) (full_chunks n addr).
Proof.
  induction n as [|n IH]; intros addr from w.
  - cbn. split; [|reflexivity]. repeat f_equal; lia.
  - cbn zeta. cbn [sendFile_loop].
    destruct (_write_run addr MAX_PAYLOAD (slice data from (from + MAX_PAYLOAD)) w)
      as [Hr Ht].
    match goal with
    | |- context [bind ?m ?k w] =>
        destruct (bind_ok m k w tt Hr) as (-> & -> & _)
    end.
    rewrite Ht.
    specialize (IH (addr + MAX_PAYLOAD) (from + MAX_PAYLOAD)
                   (after (_write addr MAX_PAYLOAD
                             (slice data from (from + MAX_PAYLOAD)) w))).
    cbn zeta in IH. destruct IH as [IHr IHt].
    rewrite IHr, IHt. split.
    + rewrite Nat2Z.inj_succ. unfold MAX_PAYLOAD.
      do 2 f_equal; [f_equal|]; lia.
    + cbn [full_chunks flat_map write_chunk_calls].
      replace (addr + MAX_PAYLOAD - (from + MAX_PAYLOAD)) with (addr - from) by lia.
      replace (addr - (addr - from)) with from by lia.
      reflexivity.
Qed.

(** [sendFile] never fails, and its calls are those of the chunks of the
    plan, one after the other. *)
Lemma sendFile_run (addr : Z) (data : bytes) (w : world D) :
  result (sendFile addr data w) = inr tt /\
  trace (sendFile addr data w) =
    flat_map (write_chunk_calls addr data)
             (chunk_plan addr (Z.of_nat (List.length data))).
Proof.
  rewrite chunk_plan_split by lia. rewrite flat_map_app.
  unfold sendFile. cbn zeta.
  pose proof (sendFile_loop_run
                (Z.to_nat (Z.of_nat (List.length data) / MAX_PAYLOAD))
                data addr 0 w) as L.
  cbn zeta in L. rewrite Z.add_0_l in L. destruct L as [Lr Lt].
  match goal with
  | |- context [bind ?m ?k w] =>
      destruct (bind_ok m k w _ Lr) as (-> & -> & _)
  end.
  rewrite Lt, Z.sub_0_r.
  assert (Hq : 0 <= Z.of_nat (List.length data) / MAX_PAYLOAD)
    by (apply Z.div_pos; unfold MAX_PAYLOAD; lia).
  rewrite Z2Nat.id by exact Hq.
  unfold last_chunk.
  destruct (Z.of_nat (List.length data) mod MAX_PAYLOAD =? 0).
  - cbn. rewrite app_nil_r. split; reflexivity.
  - match goal with
    | |- context [_write ?a ?n ?d ?w'] => destruct (_write_run a n d w') as [Wr Wt]
    end.
    rewrite Wr, Wt. split; [reflexivity|].
    cbn [flat_map write_chunk_calls app]. rewrite Z.add_0_l.
    replace (addr + MAX_PAYLOAD * (Z.of_nat (List.length data) / MAX_PAYLOAD) - addr)
      with (MAX_PAYLOAD * (Z.of_nat (List.length data) / MAX_PAYLOAD)) by lia.
    reflexivity.
Qed.

Lemma written_app (a b : list call) : written (a ++ b) = written a ++ written b.
Proof. apply flat_map_app. Qed.

Lemma read_sizes_app (a b : list call) :
  read_sizes (a ++ b) = read_sizes a ++ read_sizes b.
Proof. apply flat_map_app. Qed.

Lemma read_data_app (a b : list call) :
  read_data (a ++ b) = read_data a ++ read_data b.
Proof. apply flat_map_app. Qed.

Lemma Port_write_run (data : bytes) (w : world D) :
  result (Port_write data w) = inr tt /\ trace (Port_write data w) = [SerWrite data].
Proof. split; reflexivity. Qed.

Lemma Port_read_run (n : Z) (w : world D) :
  n <> 0 ->
  let data := fst (ser_read n (device w)) in
  trace (Port_read n w) = [SerRead n data] /\
  result (Port_read n w) =
    match data with
    | [] => inl (TimeoutError n 0)
    | _ :: _ => inr data
    end.
Proof.
  intros Hn. unfold Port_read. apply Z.eqb_neq in Hn. rewrite Hn.
  destruct (ser_read n (device w)) as [data d']. cbn.
  destruct data; cbn; split; reflexivity.
Qed.

(** The loop of [receiveFile]: it either gets through its [n] chunks, every
    read having delivered something, or stops at the first empty read. *)
Lemma receiveFile_loop_run (L : Z) (n : nat) :
  L <> 0 ->
  forall (offset : Z) (acc : bytes) (w : world D),
    let r := receiveFile_loop n L offset acc w in
    match result r with
    | inr (offset', acc') =>
        offset' = offset + MAX_PAYLOAD * Z.of_nat n /\
        written (trace r) = map read_chunk_frame (full_chunks n offset) /\
        read_sizes (trace r) = repeat L n /\
        acc' = acc ++ List.concat (read_data (trace r)) /\
        existsb empty_read (trace r) = false
    | inl e =>
        e = TimeoutError L 0 /\
        existsb empty_read (trace r) = true /\
        exists k, (k < n)%nat /\
          written (trace r) = map read_chunk_frame (full_chunks (S k) offset)
    end.
Proof.
  intros HL. induction n as [|n IH]; intros offset acc w.
  - cbn. rewrite app_nil_r. repeat split. unfold MAX_PAYLOAD. lia.
  - cbn zeta. cbn [receiveFile_loop].
    set (frame := str_bytes (bulk_frame READ offset MAX_PAYLOAD)).
    destruct (Port_write_run frame w) as [Wr Wt].
    match goal with
    | |- context [bind ?m ?k w] =>
        destruct (bind_ok m k w tt Wr) as (-> & -> & _)
    end.
    rewrite Wt. set (w1 := after (Port_write frame w)).
    destruct (Port_read_run L w1 HL) as [Rt Rr]. cbn zeta in Rt, Rr.
    destruct (fst (ser_read L (device w1))) as [|b data] eqn:Edata.
    + match goal with
      | |- context [bind ?m ?k w1] =>
          destruct (bind_raise m k w1 _ Rr) as (-> & -> & _)
      end.
      rewrite Rt. cbn. repeat split. exists 0%nat. split; [lia | reflexivity].
    + match goal with
      | |- context [bind ?m ?k w1] =>
          destruct (bind_ok m k w1 _ Rr) as (-> & -> & _)
      end.
      rewrite Rt.
      specialize (IH (offset + MAX_PAYLOAD) (acc ++ b :: data) (after (Port_read L w1))).
      cbn zeta in IH.
      destruct (result (receiveFile_loop n L (offset + MAX_PAYLOAD) (acc ++ b :: data)
                          (after (Port_read L w1)))) as [e|[offset' acc']].
      * destruct IH as (-> & IHe & k & Hk & IHw). repeat split.
        -- cbn. exact IHe.
        -- exists (S k). split; [lia|].
           rewrite !written_app, IHw. reflexivity.
      * destruct IH as (-> & IHw & IHs & -> & IHe). repeat split.
        -- rewrite Nat2Z.inj_succ. unfold MAX_PAYLOAD. lia.
        -- rewrite !written_app, IHw. reflexivity.
        -- rewrite !read_sizes_app, IHs. reflexivity.
        -- rewrite !read_data_app, !concat_app, <- app_assoc. cbn.
           rewrite app_nil_r. reflexivity.
        -- cbn. exact IHe.
Qed.

(** [receiveFile] as a whole.  It returns exactly when no read came back
    empty; then it has issued the commands of the plan and returns what
    the reads delivered, in order.  The only exception it raises is
    [TimeoutError], at the first empty read. *)
Lemma receiveFile_run (addr L : Z) (w : world D) :
  0 <= L ->
  let r := receiveFile addr L w in
  match result r with
  | inr res =>
      written (trace r) = map read_chunk_frame (chunk_plan addr L) /\
      read_sizes (trace r) =
        repeat L (Z.to_nat (L / MAX_PAYLOAD)) ++
        (if L mod MAX_PAYLOAD =? 0 then [] else [L mod MAX_PAYLOAD]) /\
      res = List.concat (read_data (trace r)) /\
      existsb empty_read (trace r) = false
  | inl e =>
      (exists n, e = TimeoutError n 0) /\
      existsb empty_read (trace r) = true
  end.
Proof.
  intros HL. destruct (Z.eq_dec L 0) as [->|Hnz].
  - cbn. repeat split.
  - cbn zeta. rewrite chunk_plan_split by exact HL.
    unfold receiveFile. cbn zeta.
    pose proof (receiveFile_loop_run L (Z.to_nat (L / MAX_PAYLOAD)) Hnz addr [] w) as Loop.
    cbn zeta in Loop.
    assert (Hq : 0 <= L / MAX_PAYLOAD) by (apply Z.div_pos; unfold MAX_PAYLOAD; lia).
    destruct (result (receiveFile_loop (Z.to_nat (L / MAX_PAYLOAD)) L addr [] w))
      as [e|[offset acc]] eqn:El.
    + destruct Loop as (-> & He & _).
      match goal with
      | |- context [bind ?m ?k w] =>
          destruct (bind_raise m k w _ El) as (-> & -> & _)
      end.
      split; [eexists; reflexivity | exact He].
    + destruct Loop as (-> & Hw & Hs & -> & He).
      match goal with
      | |- context [bind ?m ?k w] =>
          destruct (bind_ok m k w _ El) as (-> & -> & _)
      end.
      cbv beta iota.
      set (w1 := after (receiveFile_loop (Z.to_nat (L / MAX_PAYLOAD)) L addr [] w)).
      rewrite Z2Nat.id by exact Hq. unfold last_chunk.
      destruct (L mod MAX_PAYLOAD =? 0) eqn:Z0.
      * cbn [ret result trace]. rewrite !app_nil_r.
        repeat split; assumption.
      * apply Z.eqb_neq in Z0.
        set (frame := str_bytes (bulk_frame READ
                        (addr + MAX_PAYLOAD * (L / MAX_PAYLOAD)) (L mod MAX_PAYLOAD))).
        destruct (Port_write_run frame w1) as [Wr Wt].
        match goal with
        | |- context [bind ?m ?k w1] =>
            destruct (bind_ok m k w1 tt Wr) as (-> & -> & _)
        end.
        rewrite Wt. set (w2 := after (Port_write frame w1)).
        destruct (Port_read_run (L mod MAX_PAYLOAD) w2 Z0) as [Rt Rr].
        cbn zeta in Rt, Rr.
        destruct (fst (ser_read (L mod MAX_PAYLOAD) (device w2))) as [|b data].
        -- match goal with
           | |- context [bind ?m ?k w2] =>
               destruct (bind_raise m k w2 _ Rr) as (-> & -> & _)
           end.
           rewrite Rt. split; [eexists; reflexivity|].
           rewrite !existsb_app. cbn. rewrite He. reflexivity.
        -- match goal with
           | |- context [bind ?m ?k w2] =>
               destruct (bind_ok m k w2 _ Rr) as (-> & -> & _)
           end.
           rewrite Rt. cbn [ret result trace]. rewrite app_nil_r.
           repeat split.
           ++ rewrite !written_app, Hw, map_app. reflexivity.
           ++ rewrite !read_sizes_app, Hs. reflexivity.
           ++ rewrite !read_data_app, !concat_app. cbn. rewrite app_nil_r.
              reflexivity.
           ++ rewrite !existsb_app, He. reflexivity.
Qed.

End Bulk.

(** * The driver's contract, claim by claim *)

(** ** Single-unit writes *)



(** ** Single-unit reads *)

(** On a little-endian host, a unit read that gets exactly [dlen] bytes
    returns their little-endian value. *)
Lemma _readUnit_little_endian_host {D : Type} `{Serial D}
    (cmd : string) (addr dlen : Z) (w : world D) :
  unit_size dlen ->
  let data := fst (ser_read dlen (after_command cmd addr dlen w)) in
  Z.of_nat (List.length data) = dlen ->
  result (_readUnit LittleEndian cmd addr dlen w) = inr (le_value data) /\
  read_sizes (trace (_readUnit LittleEndian cmd addr dlen w)) = [dlen].
Proof.
  intros Hu data Hlen.
  assert (Hnz : dlen <> 0) by (destruct Hu as [->|[->| ->]]; lia).
  destruct (_readUnit_cases LittleEndian cmd addr dlen w Hnz) as [Ht Hr].
  cbn zeta in Ht, Hr. fold data in Ht, Hr. rewrite Ht, Hr. split; [|reflexivity].
  destruct (unit_format_unit dlen Hu) as (f & Ef & Hf).
  rewrite Ef. unfold struct_unpack.
  replace (Nat.eqb (List.length data) (calcsize f)) with true
    by (symmetry; apply Nat.eqb_eq; lia).
  destruct data as [|b data']; [cbn in Hlen; destruct Hu as [->|[->| ->]]; lia|].
  destruct f; reflexivity.
Qed.

(** The word read is little-endian on every host. *)
Lemma readLong_run {D : Type} `{Serial D} (host : endian) (addr : Z) (w : world D) :
  let frame := str_bytes (read_unit_frame READ_WORD addr 4) in
  let reply := ser_read 4 (ser_write frame (device w)) in
  List.length (fst reply) = 4%nat ->
  result (readLong host addr w) = inr (le_value (fst reply)) /\
  trace (readLong host addr w) = [SerWrite frame; SerRead 4 (fst reply)] /\
  after (readLong host addr w) = World (opened w) (snd reply).
Proof.
  intros frame reply Hlen.
  unfold readLong, _readUnit, bind, Port_write, on_serial, Port_read.
  cbn [Z.eqb result after trace device opened app].
  change (Pos.eqb 4 4) with true. cbn match.
  fold frame. fold reply. destruct reply as [data d']. cbn [fst snd] in *.
  do 5 (destruct data as [|? data]; [try discriminate Hlen|]);
    [|discriminate Hlen].
  repeat split.
Qed.

(** The host's byte order decides how the half-word read is decoded: on a
    big-endian host the reply bytes [34 12] are read as [0x3412].
    (C5 says [0x1234], their little-endian value, on every host: the word
    format ["<L"] forces the order, the half-word format ["H"] does not.) *)
Theorem readWord_decodes_in_host_order :
  result (readWord BigEndian 0x20000000 (start [[x34; x12]])) = inr 0x3412 /\
  le_value [x34; x12] = 0x1234 /\
  read_sizes (trace (readWord BigEndian 0x20000000 (start [[x34; x12]]))) = [2] /\
  result (readWord LittleEndian 0x20000000 (start [[x34; x12]])) = inr 0x1234 /\
  result (readLong BigEndian 0x20000000 (start [[x78; x56; x34; x12]]))
    = inr 0x12345678.
Proof. repeat split. Qed.

(** ** The version query *)

(** C6, as the code has it.  [version] sends the frame [V#] and a line feed
    and nothing else: it makes no read and evaluates to [None].  The reply
    is what a read by the caller, of a length the caller chooses, then
    delivers. *)
Theorem version_sends_query_only {D : Type} `{Serial D} (w : world D) :
  result (version w) = inr PyNone /\
  trace (version w) = [SerWrite (str_bytes frame_V)] /\
  read_sizes (trace (version w)) = [] /\
  forall n : Z, n <> 0 ->
    trace (bind version (fun _ => Port_read n) w) =
      [SerWrite (str_bytes frame_V);
       SerRead n (fst (ser_read n (ser_write (str_bytes frame_V) (device w))))].
Proof.
  repeat split. intros n Hn.
  unfold bind, version, bind, writeCmd, Port_write, on_serial, ret.
  cbn [result after trace app device opened].
  pose proof (Port_read_run n
                (World (opened w) (ser_write (str_bytes (cmd_frame VERSION)) (device w)))
                Hn) as [Rt _].
  cbn zeta in Rt. cbn [device] in Rt. rewrite Rt. reflexivity.
Qed.

Lemma version_sends_query_only_witness :
  (32 <> 0) /\
  trace (bind version (fun _ => Port_read 32) (start [str_bytes "v1.4"])) =
    [SerWrite (str_bytes frame_V); SerRead 32 (str_bytes "v1.4")].
Proof.
  split; [discriminate|].
  exact (proj2 (proj2 (proj2 (version_sends_query_only (start [str_bytes "v1.4"]))))
           32 ltac:(discriminate)).
Defined.

(** C6 fails as stated: with a reply waiting on the line, [version] still
    evaluates to [None], not to a string, and has read nothing. *)
Lemma version_returns_nothing :
  ~ (exists s : string,
       result (version (start [str_bytes "v1.4"])) = inr (PyStr s)) /\
  read_data (trace (version (start [str_bytes "v1.4"]))) = [].
Proof.
  split; [|reflexivity].
  intros [s Hs]. discriminate Hs.
Qed.

(** ** The unit size and the error branches *)

(** C10, as the code has it.  For a unit size of 1, 2 or 4 neither error
    branch is taken: [_writeUnit] finds its mask and succeeds, and
    [_readUnit] never hands a [None] format to [struct.unpack].  For any
    other size [_writeUnit] raises [KeyError] before any transport call, and
    [_readUnit] never returns: it raises [TypeError] from the [None] format,
    unless its size is not zero and the read came back empty, in which case
    [Port.read] has already raised [TimeoutError]. *)
Theorem unit_size_guards_error_branches {D : Type} `{Serial D}
    (host : endian) (cmd : string) (addr value dlen : Z) (w : world D) :
  (unit_size dlen ->
     MASKS dlen <> None /\ unit_format dlen <> None /\
     result (_writeUnit cmd addr value dlen w) = inr tt /\
     result (_readUnit host cmd addr dlen w) <> inl TypeError) /\
  (~ unit_size dlen ->
     MASKS dlen = None /\ unit_format dlen = None /\
     result (_writeUnit cmd addr value dlen w) = inl (KeyError dlen) /\
     trace (_writeUnit cmd addr value dlen w) = [] /\
     result (_readUnit host cmd addr dlen w) =
       match fst (ser_read dlen (after_command cmd addr dlen w)) with
       | [] => if dlen =? 0 then inl TypeError else inl (TimeoutError dlen 0)
       | _ :: _ => inl TypeError
       end).
Proof.
  split; intros Hu.
  - destruct (unit_format_unit dlen Hu) as (f & Ef & Hf).
    rewrite (MASKS_unit dlen Hu), Ef, (_writeUnit_unit cmd addr value dlen w Hu).
    repeat split; try discriminate.
    assert (Hnz : dlen <> 0) by (destruct Hu as [->|[->| ->]]; lia).
    destruct (_readUnit_cases host cmd addr dlen w Hnz) as [_ Hr].
    cbn zeta in Hr. rewrite Hr, Ef.
    destruct (fst (ser_read dlen (after_command cmd addr dlen w))) as [|b data];
      [discriminate|].
    unfold struct_unpack.
    destruct (Nat.eqb (List.length (b :: data)) (calcsize f)); discriminate.
  - rewrite (MASKS_other dlen Hu), (unit_format_other dlen Hu).
    unfold _writeUnit. rewrite (MASKS_other dlen Hu).
    repeat split.
    destruct (Z.eq_dec dlen 0) as [->|Hnz].
    + rewrite _readUnit_zero.
      destruct (fst (ser_read 0 (after_command cmd addr 0 w))); reflexivity.
    + destruct (_readUnit_cases host cmd addr dlen w Hnz) as [_ Hr].
      cbn zeta in Hr. rewrite Hr, (unit_format_other dlen Hu).
      apply Z.eqb_neq in Hnz. rewrite Hnz.
      destruct (fst (ser_read dlen (after_command cmd addr dlen w))); reflexivity.
Qed.

Lemma unit_size_guards_error_branches_witness :
  (unit_size 4 /\
   result (_writeUnit WRITE_WORD 0x20000000 0xdeadaffe 4 (start Silent)) = inr tt) /\
  (~ unit_size 3 /\
   result (_writeUnit WRITE_WORD 0x20000000 0xdeadaffe 3 (start Silent))
     = inl (KeyError 3) /\
   result (_readUnit LittleEndian READ_WORD 0x20000000 3 (start [[x01; x02; x03]]))
     = inl TypeError).
Proof.
  assert (U4 : unit_size 4) by (right; right; reflexivity).
  assert (U3 : ~ unit_size 3) by (unfold unit_size; lia).
  split; split; try assumption.
  - exact (proj1 (proj2 (proj2
             (proj1 (unit_size_guards_error_branches
                       LittleEndian WRITE_WORD 0x20000000 0xdeadaffe 4 (start Silent))
                    U4)))).
  - split.
    + exact (proj1 (proj2 (proj2
               (proj2 (unit_size_guards_error_branches
                         LittleEndian WRITE_WORD 0x20000000 0xdeadaffe 3 (start Silent))
                      U3)))).
    + exact (proj2 (proj2 (proj2 (proj2
               (proj2 (unit_size_guards_error_branches
                         LittleEndian READ_WORD 0x20000000 0 3
                         (start [[x01; x02; x03]]))
                      U3))))).
Defined.

(** C10 fails as stated: a unit read of size 3 on a silent line does not
    reach the [None] format; [Port.read] raises [TimeoutError] first. *)
Lemma readUnit_size_3_times_out_first :
  ~ unit_size 3 /\
  unit_format 3 = None /\
  result (_readUnit LittleEndian READ_WORD 0x20000000 3 (start Silent))
    = inl (TimeoutError 3 0) /\
  result (_readUnit LittleEndian READ_WORD 0x20000000 3 (start Silent))
    <> inl TypeError.
Proof.
  repeat split; try discriminate.
  unfold unit_size. lia.
Qed.

(** ** Short replies *)

(** C2, as the code has it.  A read of [N > 0] bytes to which the line
    delivers nothing raises [TimeoutError] in [Port.read], hence in
    [_readUnit] and in [receiveFile]; [_readUnit] never returns a value
    decoded from a number of bytes other than the unit size; and
    [receiveFile] raises nothing but [TimeoutError], exactly when one of its
    reads came back empty. *)
Theorem empty_reply_raises_timeout {D : Type} `{Serial D}
    (host : endian) (cmd : string) (addr dlen L N : Z) (w : world D) :
  (0 < N -> fst (ser_read N (device w)) = [] ->
     result (Port_read N w) = inl (TimeoutError N 0)) /\
  (unit_size dlen ->
     fst (ser_read dlen (after_command cmd addr dlen w)) = [] ->
     result (_readUnit host cmd addr dlen w) = inl (TimeoutError dlen 0)) /\
  (unit_size dlen ->
     forall v, result (_readUnit host cmd addr dlen w) = inr v ->
     Z.of_nat (List.length (fst (ser_read dlen (after_command cmd addr dlen w))))
       = dlen) /\
  (0 <= L ->
     match result (receiveFile addr L w) with
     | inl e => (exists n, e = TimeoutError n 0) /\
                existsb empty_read (trace (receiveFile addr L w)) = true
     | inr _ => existsb empty_read (trace (receiveFile addr L w)) = false
     end).
Proof.
  repeat split.
  - intros HN Hempty.
    destruct (Port_read_run N w ltac:(lia)) as [_ Hr]. cbn zeta in Hr.
    rewrite Hr, Hempty. reflexivity.
  - intros Hu Hempty.
    assert (Hnz : dlen <> 0) by (destruct Hu as [->|[->| ->]]; lia).
    destruct (_readUnit_cases host cmd addr dlen w Hnz) as [_ Hr].
    cbn zeta in Hr. rewrite Hr, Hempty. reflexivity.
  - intros Hu v Hv.
    assert (Hnz : dlen <> 0) by (destruct Hu as [->|[->| ->]]; lia).
    destruct (_readUnit_cases host cmd addr dlen w Hnz) as [_ Hr].
    cbn zeta in Hr. rewrite Hr in Hv.
    destruct (unit_format_unit dlen Hu) as (f & Ef & Hf). rewrite Ef in Hv.
    destruct (fst (ser_read dlen (after_command cmd addr dlen w))) as [|b data];
      [discriminate Hv|].
    unfold struct_unpack in Hv.
    destruct (Nat.eqb (List.length (b :: data)) (calcsize f)) eqn:El;
      [|discriminate Hv].
    apply Nat.eqb_eq in El. rewrite El. exact Hf.
  - intros HL. pose proof (receiveFile_run addr L w HL) as R. cbn zeta in R.
    destruct (result (receiveFile addr L w)) as [e|res].
    + exact R.
    + apply R.
Qed.

Lemma empty_reply_raises_timeout_witness :
  (0 < 4 /\ fst (ser_read 4 (device (start Silent))) = [] /\
   result (Port_read 4 (start Silent)) = inl (TimeoutError 4 0)) /\
  (unit_size 4 /\
   result (_readUnit LittleEndian READ_WORD 0x20000000 4 (start Silent))
     = inl (TimeoutError 4 0)) /\
  (0 <= 4001 /\
   existsb empty_read (trace (receiveFile 0x20000000 4001 (start Silent))) = true).
Proof.
  assert (U4 : unit_size 4) by (right; right; reflexivity).
  pose proof (empty_reply_raises_timeout
                LittleEndian READ_WORD 0x20000000 4 4001 4 (start Silent))
    as (P & R & _ & B).
  split; [|split].
  - split; [reflexivity|]. split; [reflexivity|]. exact (P eq_refl eq_refl).
  - split; [exact U4|]. exact (R U4 eq_refl).
  - split; [discriminate|]. exact (proj2 (B ltac:(discriminate))).
Defined.

(** C2 fails as stated: one byte delivered where two were requested is
    neither a timeout for [Port.read] nor for the driver.  [receiveFile]
    returns the single byte as its result, and the half-word read fails in
    [struct.unpack], not with [TimeoutError]. *)
Lemma short_reply_is_not_a_timeout :
  (List.length (fst (ser_read 2 [[x34]])) < 2)%nat /\
  result (Port_read 2 (start [[x34]])) = inr [x34] /\
  result (receiveFile 0x20000000 2 (start [[x34]])) = inr [x34] /\
  result (readWord LittleEndian 0x20000000 (start [[x34]])) = inl StructError.
Proof. split; [apply Nat.lt_succ_diag_r|]. repeat split. Qed.

(** ** Chunking of bulk transfers *)

Lemma ceil_div_spec (L : Z) :
  MAX_PAYLOAD * (ceil_div L MAX_PAYLOAD - 1) < L <= MAX_PAYLOAD * ceil_div L MAX_PAYLOAD.
Proof.
  rewrite ceil_div_split.
  pose proof (Z.div_mod L MAX_PAYLOAD ltac:(unfold MAX_PAYLOAD; lia)) as E.
  pose proof (Z.mod_pos_bound L MAX_PAYLOAD ltac:(unfold MAX_PAYLOAD; lia)) as B.
  destruct (L mod MAX_PAYLOAD =? 0) eqn:Z0;
    [apply Z.eqb_eq in Z0 | apply Z.eqb_neq in Z0];
    unfold MAX_PAYLOAD in *; lia.
Qed.


(** C9.  Each chunk of a bulk write makes two separate writes on the port,
    the command frame and then the payload, with a flush of the port (output,
    then input) between them and another after the payload; [sendFile] is
    nothing but these six calls, chunk after chunk, so no write ever carries
    both a command and data. *)
Theorem bulk_write_keeps_command_and_payload_apart {D : Type} `{Serial D}
    (addr : Z) (data : bytes) (w : world D) :
  (forall a n payload,
     trace (_write a n payload w) =
       [ SerWrite (str_bytes (bulk_frame WRITE a n));
         SerFlushOutput; SerFlushInput;
         SerWrite payload;
         SerFlushOutput; SerFlushInput ]) /\
  trace (sendFile addr data w) =
    flat_map
      (fun chunk =>
         [ SerWrite (write_chunk_frame chunk);
           SerFlushOutput; SerFlushInput;
           SerWrite (slice data (fst chunk - addr) (fst chunk - addr + snd chunk));
           SerFlushOutput; SerFlushInput ])
      (chunk_plan addr (Z.of_nat (List.length data))).
Proof.
  split.
  - intros a n payload. apply _write_run.
  - destruct (sendFile_run addr data w) as [_ St]. rewrite St.
    apply flat_map_ext. intros [a n]. reflexivity.
Qed.

(** ** The read size of a full chunk *)

(** What [receiveFile] asks of the port for [MAX_PAYLOAD + 1] bytes, on a
    line that answers each command with exactly the advertised bytes: the
    two commands advertise 4000 bytes and 1 byte, but the read after the
    first one asks for 4001 bytes, the length of the whole transfer.
    (C1 says that read asks for the chunk's 4000.) *)
Theorem receiveFile_full_chunk_reads_whole_length :
  map snd (chunk_plan 0x20000000 4001) = [4000; 1] /\
  written (trace (receiveFile 0x20000000 4001 (start [repeat x5a 4000; [xa5]]))) =
    map read_chunk_frame [(0x20000000, 4000); (0x20000FA0, 1)] /\
  read_sizes (trace (receiveFile 0x20000000 4001 (start [repeat x5a 4000; [xa5]]))) =
    [4001; 1] /\
  result (receiveFile 0x20000000 4001 (start [repeat x5a 4000; [xa5]])) =
    inr (repeat x5a 4000 ++ [xa5]).
Proof. repeat split; vm_compute; reflexivity. Qed.

(** In general: every read of the loop asks for the whole length. *)
Lemma receiveFile_read_sizes {D : Type} `{Serial D} (addr L : Z) (w : world D) :
  0 <= L ->
  forall res, result (receiveFile addr L w) = inr res ->
  read_sizes (trace (receiveFile addr L w)) =
    repeat L (Z.to_nat (L / MAX_PAYLOAD)) ++
    (if L mod MAX_PAYLOAD =? 0 then [] else [L mod MAX_PAYLOAD]).
Proof.
  intros HL res Hres. pose proof (receiveFile_run addr L w HL) as R.
  cbn zeta in R. rewrite Hres in R. apply R.
Qed.

(** ** Chip identification *)

Lemma land_EXT (chipId : Z) :
  (Z.land chipId Mask.EXT =? Mask.EXT) = Z.testbit chipId 31.
Proof.
  change Mask.EXT with (2 ^ 31).
  destruct (Z.testbit chipId 31) eqn:B.
  - apply Z.eqb_eq. apply Z.bits_inj'. intros n Hn.
    rewrite Z.land_spec, Z.pow2_bits_eqb by lia.
    destruct (Z.eqb_spec 31 n) as [<-|Hne].
    + rewrite B. reflexivity.
    + apply andb_false_r.
  - apply Z.eqb_neq. intros E.
    assert (T : Z.testbit (Z.land chipId (2 ^ 31)) 31 = true)
      by (rewrite E; apply Z.pow2_bits_true; lia).
    rewrite Z.land_spec, B in T. discriminate T.
Qed.

Section ChipInfo.

Context {D : Type} `{Serial D}.
Variable host : endian.

(** With the extended flag clear, [chipInfo] is [chipId] and table lookups. *)
Lemma chipInfo_without_ext (w : world D) (id : Z) :
  result (chipId host w) = inr id ->
  Z.testbit id 31 = false ->
  trace (chipInfo host w) = trace (chipId host w) /\
  result (chipInfo host w) =
    inr (mkDeviceCapabilities
           (dict_get FriendlyNames id "*** Unknown ***")
           (dict_get NvpTypes (Z.shiftr (Z.land id Mask.NVPTYP) 28) (Text "*** Unknown ***"))
           (dict_get Archs (Z.shiftr (Z.land id Mask.ARCH) 20) (Text "*** Unknown ***"))
           (dict_get SRamSizes (Z.shiftr (Z.land id Mask.SRAMSIZ) 16) (Text "*** Unknown ***"))
           (dict_get NvpSizes (Z.shiftr (Z.land id Mask.NVPSIZ) 8) (Text "*** Unknown ***"))
           (dict_get NvpSiz2s (Z.shiftr (Z.land id Mask.NVPSIZ2) 12) (Text "*** Unknown ***"))
           (dict_get EProcs (Z.shiftr (Z.land id Mask.EPROC) 5) (Text "*** Unknown ***"))
           (Z.land id Mask.VERSION) false "*** Reserved ***"
           false false false false).
Proof.
  intros Hid Hbit. unfold chipInfo.
  match goal with
  | |- context [bind ?m ?k w] => destruct (bind_ok m k w id Hid) as (-> & -> & _)
  end.
  cbv beta. rewrite land_EXT, Hbit. cbn. rewrite app_nil_r. split; reflexivity.
Qed.

(** With the extended flag set, [chipInfo] goes on to read the extended
    register and takes package and feature flags from it. *)
Lemma chipInfo_with_ext (w : world D) (id exid : Z) :
  result (chipId host w) = inr id ->
  Z.testbit id 31 = true ->
  result (exId host (after (chipId host w))) = inr exid ->
  trace (chipInfo host w) =
    trace (chipId host w) ++ trace (exId host (after (chipId host w))) /\
  result (chipInfo host w) =
    inr (mkDeviceCapabilities
           (dict_get FriendlyNames id "*** Unknown ***")
           (dict_get NvpTypes (Z.shiftr (Z.land id Mask.NVPTYP) 28) (Text "*** Unknown ***"))
           (dict_get Archs (Z.shiftr (Z.land id Mask.ARCH) 20) (Text "*** Unknown ***"))
           (dict_get SRamSizes (Z.shiftr (Z.land id Mask.SRAMSIZ) 16) (Text "*** Unknown ***"))
           (dict_get NvpSizes (Z.shiftr (Z.land id Mask.NVPSIZ) 8) (Text "*** Unknown ***"))
           (dict_get NvpSiz2s (Z.shiftr (Z.land id Mask.NVPSIZ2) 12) (Text "*** Unknown ***"))
           (dict_get EProcs (Z.shiftr (Z.land id Mask.EPROC) 5) (Text "*** Unknown ***"))
           (Z.land id Mask.VERSION) true
           (dict_get Packages (Z.shiftr (Z.land exid Mask.PACKAGE) 24) "*** Reserved ***")
           (Z.land exid Mask.LCD =? Mask.LCD)
           (Z.land exid Mask.USB =? Mask.USB)
           (Z.land exid Mask.USBFULL =? Mask.USBFULL)
           (Z.land exid Mask.AES =? Mask.AES)).
Proof.
  intros Hid Hbit Hex. unfold chipInfo.
  match goal with
  | |- context [bind ?m ?k w] => destruct (bind_ok m k w id Hid) as (-> & -> & _)
  end.
  cbv beta. rewrite land_EXT, Hbit.
  set (w1 := after (chipId host w)) in *.
  match goal with
  | |- context [bind (bind ?m ?k) ?k' w1] =>
      destruct (bind_ok m k w1 exid Hex) as (E1 & E2 & E3);
      assert (Hin : result (bind m k w1) = inr
                (PkgCode (Z.shiftr (Z.land exid Mask.PACKAGE) 24),
                 Z.land exid Mask.LCD =? Mask.LCD,
                 Z.land exid Mask.USBFULL =? Mask.USBFULL,
                 Z.land exid Mask.USB =? Mask.USB,
                 Z.land exid Mask.AES =? Mask.AES)) by (rewrite E1; reflexivity);
      destruct (bind_ok (bind m k) k' w1 _ Hin) as (-> & -> & _);
      rewrite E2
  end.
  cbn [ret result trace Packages_get]. rewrite !app_nil_r. split; reflexivity.
Qed.

End ChipInfo.

Section ChipInfoReads.

Context {D : Type} `{Serial D}.
Variable host : endian.

Lemma readLong_calls (addr : Z) (w : world D) :
  written (trace (readLong host addr w)) =
    [str_bytes (read_unit_frame READ_WORD addr 4)] /\
  read_sizes (trace (readLong host addr w)) = [4].
Proof.
  destruct (_readUnit_cases host READ_WORD addr 4 w ltac:(discriminate)) as [Ht _].
  cbn zeta in Ht. unfold readLong. rewrite Ht. split; reflexivity.
Qed.

(** With the extended flag set the extended register is read, whether or
    not that read then succeeds. *)
Lemma chipInfo_ext_calls (w : world D) (id : Z) :
  result (chipId host w) = inr id ->
  Z.testbit id 31 = true ->
  trace (chipInfo host w) =
    trace (chipId host w) ++ trace (exId host (after (chipId host w))).
Proof.
  intros Hid Hbit.
  destruct (result (exId host (after (chipId host w)))) as [e|exid] eqn:Hex.
  - unfold chipInfo.
    match goal with
    | |- context [bind ?m ?k w] => destruct (bind_ok m k w id Hid) as (_ & -> & _)
    end.
    cbv beta. rewrite land_EXT, Hbit. f_equal.
    set (w1 := after (chipId host w)) in *.
    match goal with
    | |- context [bind (bind ?m ?k) ?k' w1] =>
        destruct (bind_raise m k w1 e Hex) as (E1 & E2 & _);
        destruct (bind_raise (bind m k) k' w1 e E1) as (_ & -> & _);
        exact E2
    end.
  - apply (chipInfo_with_ext host w id exid Hid Hbit Hex).
Qed.

End ChipInfoReads.

(** What [chipInfo] reports as the package when bit 31 of the chip ID is
    clear.  For the chip ID [0x2B0B0AE0] it reads the chip-ID register only
    and reports LCD, USB, USB-full and AES as false, but the package it
    reports is ["*** Reserved ***"]: the marker ["*** Unknown ***"] that the
    [else] branch assigns is used as a key of the package table, is no key of
    it, and comes out as the default of that lookup, which is also what a
    present extended register with the package code 6 or 7 gives.  (C7 says
    the package is reported as absent.)  With bit 31 set and the extended
    register reading [0] the package is ["24-pin"], the entry of the lowest
    code of the table, and the four flags are false. *)
Theorem chipInfo_clear_flag_package_is_reserved :
  Z.testbit 0x2B0B0AE0 31 = false /\
  result (chipInfo LittleEndian (start [[xe0; x0a; x0b; x2b]])) =
    inr (mkDeviceCapabilities
           "*** Unknown ***"
           (Info "FLASH" "Embedded Flash Memory")
           (Info "SAM4L" "SAM4Lxx Series")
           (Info "64K" "64K bytes")
           (Info "512K" "512K bytes")
           (Info "None" "None")
           (Info "CM4" "Cortex-M4")
           0 false "*** Reserved ***" false false false false) /\
  read_sizes (trace (chipInfo LittleEndian (start [[xe0; x0a; x0b; x2b]]))) = [4] /\
  written (trace (chipInfo LittleEndian (start [[xe0; x0a; x0b; x2b]]))) =
    [str_bytes (read_unit_frame READ_WORD CHIP_ID_ADDR 4)] /\
  Packages_get (PkgText "*** Unknown ***") = "*** Reserved ***" /\
  Packages_get (PkgCode 6) = "*** Reserved ***" /\
  Packages_get (PkgCode 7) = "*** Reserved ***" /\
  result (chipInfo LittleEndian
            (start [[xe0; x0a; x0b; xab]; [x00; x00; x00; x06]])) =
    inr (mkDeviceCapabilities
           "ATSAM4LS8A"
           (Info "FLASH" "Embedded Flash Memory")
           (Info "SAM4L" "SAM4Lxx Series")
           (Info "64K" "64K bytes")
           (Info "512K" "512K bytes")
           (Info "None" "None")
           (Info "CM4" "Cortex-M4")
           0 true "*** Reserved ***" false false false false) /\
  result (chipInfo LittleEndian
            (start [[xe0; x0a; x0b; xab]; [x00; x00; x00; x00]])) =
    inr (mkDeviceCapabilities
           "ATSAM4LS8A"
           (Info "FLASH" "Embedded Flash Memory")
           (Info "SAM4L" "SAM4Lxx Series")
           (Info "64K" "64K bytes")
           (Info "512K" "512K bytes")
           (Info "None" "None")
           (Info "CM4" "Cortex-M4")
           0 true "24-pin" false false false false) /\
  dict_lookup Packages 0 = Some "24-pin" /\
  Forall (fun entry => 0 <= fst entry) Packages.
Proof.
  repeat split.
  repeat constructor; discriminate.
Qed.

(** C8, as the code has it.  The chip ID [0xAB0B0AE0] has bit 31 set, so
    after it [chipInfo] always goes on to read the extended register; once
    that read has delivered a value, the NVM type, the architecture and the
    size fields are those the tables give for the ID: FLASH, SAM4L, 64K of
    SRAM, 512K of NVM and no second NVM. *)
Theorem chipInfo_AB0B0AE0 {D : Type} `{Serial D} (host : endian) (w : world D) :
  result (chipId host w) = inr 0xAB0B0AE0 ->
  Z.testbit 0xAB0B0AE0 31 = true /\
  written (trace (chipInfo host w)) =
    [str_bytes (read_unit_frame READ_WORD CHIP_ID_ADDR 4);
     str_bytes (read_unit_frame READ_WORD EX_ID_ADDR 4)] /\
  (forall exid, result (exId host (after (chipId host w))) = inr exid ->
     exists dc,
       result (chipInfo host w) = inr dc /\
       ext dc = true /\
       nvpType dc = Info "FLASH" "Embedded Flash Memory" /\
       architecture dc = Info "SAM4L" "SAM4Lxx Series" /\
       sramSize dc = Info "64K" "64K bytes" /\
       nvpSize0 dc = Info "512K" "512K bytes" /\
       nvpSize1 dc = Info "None" "None" /\
       read_sizes (trace (chipInfo host w)) = [4; 4]).
Proof.
  intros Hid.
  pose proof (chipInfo_ext_calls host w 0xAB0B0AE0 Hid eq_refl) as Ht.
  destruct (readLong_calls host CHIP_ID_ADDR w) as [Cw Cs].
  destruct (readLong_calls host EX_ID_ADDR (after (chipId host w))) as [Ew Es].
  split; [reflexivity|]. split.
  - rewrite Ht, written_app. unfold chipId at 1, exId. rewrite Cw, Ew. reflexivity.
  - intros exid Hex.
    destruct (chipInfo_with_ext host w 0xAB0B0AE0 exid Hid eq_refl Hex) as [_ Hr].
    eexists. split; [exact Hr|].
    cbn [ext nvpType architecture sramSize nvpSize0 nvpSize1].
    repeat split.
    rewrite Ht, read_sizes_app. unfold chipId at 1, exId. rewrite Cs, Es. reflexivity.
Qed.

Lemma chipInfo_AB0B0AE0_witness :
  result (chipId BigEndian (start [[xe0; x0a; x0b; xab]; [x0f; x00; x00; x03]]))
    = inr 0xAB0B0AE0 /\
  written (trace (chipInfo BigEndian
                    (start [[xe0; x0a; x0b; xab]; [x0f; x00; x00; x03]]))) =
    [str_bytes (read_unit_frame READ_WORD CHIP_ID_ADDR 4);
     str_bytes (read_unit_frame READ_WORD EX_ID_ADDR 4)].
Proof.
  assert (I : result (chipId BigEndian
                        (start [[xe0; x0a; x0b; xab]; [x0f; x00; x00; x03]]))
              = inr 0xAB0B0AE0) by reflexivity.
  split; [exact I|].
  exact (proj1 (proj2 (chipInfo_AB0B0AE0 BigEndian _ I))).
Defined.

(** C8 fails as stated: bit 31 of [0xAB0B0AE0] is set, and after this chip
    ID [chipInfo] sends the read command of the extended register and reads
    again; when that second read gets no answer, [chipInfo] fails with its
    [TimeoutError] and resolves nothing. *)
Lemma chipInfo_AB0B0AE0_reads_extended_register :
  Z.testbit 0xAB0B0AE0 31 = true /\
  Z.land 0xAB0B0AE0 Mask.EXT = Mask.EXT /\
  read_sizes (trace (chipInfo LittleEndian
                       (start [[xe0; x0a; x0b; xab]; [x00; x00; x00; x00]]))) = [4; 4] /\
  written (trace (chipInfo LittleEndian
                    (start [[xe0; x0a; x0b; xab]; [x00; x00; x00; x00]]))) =
    [str_bytes (read_unit_frame READ_WORD CHIP_ID_ADDR 4);
     str_bytes (read_unit_frame READ_WORD EX_ID_ADDR 4)] /\
  result (chipInfo LittleEndian (start [[xe0; x0a; x0b; xab]])) =
    inl (TimeoutError 4 0).
Proof. repeat split. Qed.

(** * Further properties of the driver *)

(** ** The port wrapper *)

(** [Port.close] is idempotent.  It never raises; it closes the pyserial
    object when the port is open and does nothing when it is not, so two
    closes in a row make the calls of one, and the port is not open
    afterwards. *)
Theorem Port_close_idempotent {D : Type} `{Serial D} (w : world D) :
  result (Port_close w) = inr tt /\
  opened (after (Port_close w)) = false /\
  trace (Port_close w) = (if opened w then [SerClose] else []) /\
  result (bind Port_close (fun _ => Port_close) w) = inr tt /\
  trace (bind Port_close (fun _ => Port_close) w) = trace (Port_close w) /\
  after (bind Port_close (fun _ => Port_close) w) = after (Port_close w).
Proof.
  unfold bind, Port_close. destruct w as [o d]. destruct o; cbn; repeat split.
Qed.

(** A successful [Port.read] hands back an empty buffer only for a request
    of zero bytes, which it answers without touching the line; for any other
    size the buffer it returns is what the line delivered to one read of
    that size, and is not empty. *)
Theorem Port_read_returns_what_arrived {D : Type} `{Serial D}
    (N : Z) (w : world D) (data : bytes) :
  result (Port_read N w) = inr data ->
  (data = [] <-> N = 0) /\
  (N = 0 -> trace (Port_read N w) = [] /\ after (Port_read N w) = w) /\
  (N <> 0 -> data = fst (ser_read N (device w)) /\
             trace (Port_read N w) = [SerRead N data]).
Proof.
  intros Hr. destruct (Z.eq_dec N 0) as [->|Hn].
  - cbn in Hr. injection Hr as <-. repeat split; try reflexivity; try congruence.
  - destruct (Port_read_run N w Hn) as [Ht Hd]. cbn zeta in Ht, Hd.
    rewrite Hd in Hr.
    destruct (fst (ser_read N (device w))) as [|b rest] eqn:E; [discriminate Hr|].
    injection Hr as <-. repeat split; try congruence; try discriminate.
Qed.

Lemma Port_read_returns_what_arrived_witness :
  result (Port_read 4 (start [[x01; x02]])) = inr [x01; x02] /\
  ([x01; x02] = [] <-> 4 = 0).
Proof.
  assert (R : result (Port_read 4 (start [[x01; x02]])) = inr [x01; x02])
    by reflexivity.
  split; [exact R|].
  exact (proj1 (Port_read_returns_what_arrived 4 (start [[x01; x02]]) _ R)).
Defined.

(** ** Hexadecimal fields read back *)

Module HexFacts.
Import Fmt.

Lemma hex_value_digit (d : Z) : 0 <= d < 16 -> hex_value (hex_digit d) = d.
Proof.
  intros Hd.
  assert (C : d = 0 \/ d = 1 \/ d = 2 \/ d = 3 \/ d = 4 \/ d = 5 \/ d = 6 \/ d = 7 \/
              d = 8 \/ d = 9 \/ d = 10 \/ d = 11 \/ d = 12 \/ d = 13 \/ d = 14 \/
              d = 15) by lia.
  repeat (destruct C as [->|C]; [reflexivity|]). subst d. reflexivity.
Qed.

Lemma digits_rev_range (base : Z) (fuel : nat) :
  2 <= base ->
  forall z, 0 <= z -> Forall (fun d => 0 <= d < base) (digits_rev base fuel z).
Proof.
  intros Hb. induction fuel as [|f IH]; intros z Hz; simpl; [constructor|].
  destruct (z <? base) eqn:E.
  - apply Z.ltb_lt in E. constructor; [lia | constructor].
  - constructor.
    + apply Z.mod_pos_bound. lia.
    + apply IH. apply Z.div_pos; lia.
Qed.

Lemma digits_range (base z : Z) :
  2 <= base -> 0 <= z -> Forall (fun d => 0 <= d < base) (digits base z).
Proof.
  intros Hb Hz. unfold digits. apply Forall_rev. now apply digits_rev_range.
Qed.

Lemma list_ascii_app (a b : string) :
  list_ascii_of_string (a ++ b)%string =
  list_ascii_of_string a ++ list_ascii_of_string b.
Proof. induction a as [|c a IH]; simpl; [reflexivity | now rewrite IH]. Qed.

Lemma parse_zeros (n : nat) (s : string) :
  parse_hex (zeros n ++ s)%string = parse_hex s.
Proof.
  unfold parse_hex, zeros.
  rewrite list_ascii_app, list_ascii_of_string_of_list_ascii, fold_left_app.
  f_equal. induction n as [|n IH]; simpl; [reflexivity | exact IH].
Qed.

Lemma parse_render (ds : list Z) :
  Forall (fun d => 0 <= d < 16) ds ->
  parse_hex (render ds) = value 16 ds.
Proof.
  unfold parse_hex, render, value.
  rewrite list_ascii_of_string_of_list_ascii.
  intros Hds. generalize 0 as acc.
  induction Hds as [|d ds Hd Hrest IH]; intros acc; [reflexivity|].
  simpl. rewrite hex_value_digit by exact Hd. apply IH.
Qed.

(** A non-negative number rendered by ["%0wX"] reads back as itself,
    whatever the width. *)
Lemma parse_X0 (w : nat) (z : Z) : 0 <= z -> parse_hex (X0 w z) = z.
Proof.
  intros Hz. unfold X0, pad0, sign_of.
  destruct (z <? 0) eqn:E; [apply Z.ltb_lt in E; lia|].
  rewrite Z.abs_eq by exact Hz. cbn [append].
  rewrite parse_zeros, parse_render by (apply digits_range; lia).
  apply FmtFacts.digits_value; lia.
Qed.

Lemma X0_min_width (w : nat) (z : Z) : (w <= String.length (X0 w z))%nat.
Proof.
  unfold X0, pad0.
  rewrite !FmtFacts.length_app_string, FmtFacts.length_zeros. lia.
Qed.

Lemma substring_skip (a s : string) (k n : nat) :
  substring (String.length a + k) n (a ++ s) = substring k n s.
Proof. induction a as [|c a IH]; simpl; [reflexivity | exact IH]. Qed.

Lemma substring_take (b c : string) :
  substring 0 (String.length b) (b ++ c) = b.
Proof.
  induction b as [|x b IH]; simpl.
  - destruct c; reflexivity.
  - now rewrite IH.
Qed.

(** The field of length [n] that follows a prefix of length [k]. *)
Lemma substring_field (a b c : string) (k n : nat) :
  String.length a = k -> String.length b = n ->
  substring k n (a ++ b ++ c) = b.
Proof.
  intros <- <-.
  rewrite <- (Nat.add_0_r (String.length a)), substring_skip.
  apply substring_take.
Qed.

Lemma append_assoc (a b c : string) : ((a ++ b) ++ c = a ++ (b ++ c))%string.
Proof. induction a as [|x a IH]; simpl; [reflexivity | now rewrite IH]. Qed.

End HexFacts.

(** Two non-negative numbers with the same ["%0wX"] rendering are equal. *)
Lemma X0_injective (w : nat) (a b : Z) :
  0 <= a -> 0 <= b -> Fmt.X0 w a = Fmt.X0 w b -> a = b.
Proof.
  intros Ha Hb E.
  rewrite <- (HexFacts.parse_X0 w a Ha), <- (HexFacts.parse_X0 w b Hb).
  now rewrite E.
Qed.

(** ["%0wX"] loses nothing: a non-negative number reads back from its
    rendering whatever the width, the rendering is never shorter than the
    width, and it is exactly as wide for numbers below [16^w]; so two
    non-negative numbers with the same rendering are equal. *)
Theorem hex_field_reads_back (w : nat) (a b : Z) :
  0 <= a -> 0 <= b ->
  parse_hex (Fmt.X0 w a) = a /\
  (w <= String.length (Fmt.X0 w a))%nat /\
  ((1 <= w)%nat -> a < 16 ^ Z.of_nat w -> String.length (Fmt.X0 w a) = w) /\
  (Fmt.X0 w a = Fmt.X0 w b -> a = b).
Proof.
  intros Ha Hb. repeat split.
  - apply HexFacts.parse_X0, Ha.
  - apply HexFacts.X0_min_width.
  - intros Hw Hlt. apply FmtFacts.X0_width; [exact Hw | lia].
  - apply X0_injective; assumption.
Qed.

Lemma hex_field_reads_back_witness :
  0 <= 0x123456789 /\ parse_hex (Fmt.X0 8 0x123456789) = 0x123456789.
Proof.
  assert (P : 0 <= 0x123456789) by discriminate.
  split; [exact P|].
  exact (proj1 (hex_field_reads_back 8 0x123456789 0x123456789 P P)).
Defined.

(** The fields of the bulk and unit-write frames sit at fixed places.  For a
    one-character opcode and a 32-bit address, the address is the eight
    characters after the opcode, a comma follows, and then comes the second
    field: the length in eight characters for a bulk frame, the masked value
    in [2*dlen] characters for a unit write; both frames end with the
    terminator, and both fields read back as the numbers they were built
    from. *)
Theorem frame_fields_read_back
    (cmd : string) (addr length value dlen : Z) :
  String.length cmd = 1%nat ->
  0 <= addr < 2 ^ 32 ->
  0 <= length < 2 ^ 32 ->
  unit_size dlen ->
  let bulk := bulk_frame cmd addr length in
  let masked := value mod 2 ^ (8 * dlen) in
  let width := Z.to_nat (2 * dlen) in
  let unit := write_unit_frame cmd addr (Fmt.X0 width masked) in
  String.length bulk = 20%nat /\
  parse_hex (substring 1 8 bulk) = addr /\
  substring 9 1 bulk = "," /\
  parse_hex (substring 10 8 bulk) = length /\
  substring 18 2 bulk = TERM /\
  String.length unit = (12 + width)%nat /\
  parse_hex (substring 1 8 unit) = addr /\
  substring 9 1 unit = "," /\
  parse_hex (substring 10 width unit) = masked /\
  substring (10 + width) 2 unit = TERM.
Proof.
  intros Hc Ha Hl Hu bulk masked width unit.
  assert (Wa : String.length (Fmt.X0 8 addr) = 8%nat)
    by (apply FmtFacts.X0_width; [lia | exact Ha]).
  assert (Wl : String.length (Fmt.X0 8 length) = 8%nat)
    by (apply FmtFacts.X0_width; [lia | exact Hl]).
  assert (Hm : 0 <= masked < 16 ^ Z.of_nat width).
  { unfold masked, width.
    destruct Hu as [->|[->| ->]]; apply (Z.mod_pos_bound value); reflexivity. }
  assert (Hw : (1 <= width)%nat)
    by (unfold width; destruct Hu as [->|[->| ->]]; cbn; lia).
  assert (Wv : String.length (Fmt.X0 width masked) = width)
    by (apply FmtFacts.X0_width; assumption).
  assert (P1 : String.length (cmd ++ Fmt.X0 8 addr)%string = 9%nat)
    by (rewrite FmtFacts.length_app_string; lia).
  assert (P2 : String.length ((cmd ++ Fmt.X0 8 addr) ++ ",")%string = 10%nat)
    by (rewrite FmtFacts.length_app_string, P1; reflexivity).
  assert (B1 : bulk = (cmd ++ Fmt.X0 8 addr ++ "," ++ Fmt.X0 8 length ++ TERM)%string)
    by reflexivity.
  assert (B2 : bulk = ((cmd ++ Fmt.X0 8 addr) ++ "," ++ Fmt.X0 8 length ++ TERM)%string)
    by (rewrite B1; symmetry; apply HexFacts.append_assoc).
  assert (B3 : bulk = (((cmd ++ Fmt.X0 8 addr) ++ ",") ++ Fmt.X0 8 length ++ TERM)%string)
    by (rewrite B2; symmetry; apply HexFacts.append_assoc).
  assert (B4 : bulk = ((((cmd ++ Fmt.X0 8 addr) ++ ",") ++ Fmt.X0 8 length) ++ TERM ++ "")%string)
    by (rewrite B3; change (TERM ++ "")%string with TERM; symmetry;
        apply HexFacts.append_assoc).
  assert (U1 : unit = (cmd ++ Fmt.X0 8 addr ++ "," ++ Fmt.X0 width masked ++ TERM)%string)
    by reflexivity.
  assert (U2 : unit = ((cmd ++ Fmt.X0 8 addr) ++ "," ++ Fmt.X0 width masked ++ TERM)%string)
    by (rewrite U1; symmetry; apply HexFacts.append_assoc).
  assert (U3 : unit = (((cmd ++ Fmt.X0 8 addr) ++ ",") ++ Fmt.X0 width masked ++ TERM)%string)
    by (rewrite U2; symmetry; apply HexFacts.append_assoc).
  assert (U4 : unit = ((((cmd ++ Fmt.X0 8 addr) ++ ",") ++ Fmt.X0 width masked) ++ TERM ++ "")%string)
    by (rewrite U3; change (TERM ++ "")%string with TERM; symmetry;
        apply HexFacts.append_assoc).
  repeat split.
  - rewrite B3, FmtFacts.length_app_string, P2, FmtFacts.length_app_string, Wl.
    reflexivity.
  - rewrite B1, (HexFacts.substring_field cmd _ _ 1 8 Hc Wa).
    apply HexFacts.parse_X0. lia.
  - rewrite B2. apply HexFacts.substring_field; [exact P1 | reflexivity].
  - rewrite B3, (HexFacts.substring_field _ _ _ 10 8 P2 Wl).
    apply HexFacts.parse_X0. lia.
  - rewrite B4. apply HexFacts.substring_field; [|reflexivity].
    rewrite FmtFacts.length_app_string, P2, Wl. reflexivity.
  - rewrite U3, FmtFacts.length_app_string, P2, FmtFacts.length_app_string, Wv.
    cbn. lia.
  - rewrite U1, (HexFacts.substring_field cmd _ _ 1 8 Hc Wa).
    apply HexFacts.parse_X0. lia.
  - rewrite U2. apply HexFacts.substring_field; [exact P1 | reflexivity].
  - rewrite U3, (HexFacts.substring_field _ _ _ 10 width P2 Wv).
    apply HexFacts.parse_X0. lia.
  - rewrite U4. apply HexFacts.substring_field; [|reflexivity].
    rewrite FmtFacts.length_app_string, P2, Wv. reflexivity.
Qed.

Lemma frame_fields_read_back_witness :
  String.length READ = 1%nat /\ 0 <= 0x20002000 < 2 ^ 32 /\ 0 <= 255 < 2 ^ 32 /\
  unit_size 2 /\
  parse_hex (substring 1 8 (bulk_frame READ 0x20002000 255)) = 0x20002000 /\
  parse_hex (substring 10 8 (bulk_frame READ 0x20002000 255)) = 255.
Proof.
  assert (Hc : String.length READ = 1%nat) by reflexivity.
  assert (Ha : 0 <= 0x20002000 < 2 ^ 32) by (split; [discriminate | reflexivity]).
  assert (Hl : 0 <= 255 < 2 ^ 32) by (split; [discriminate | reflexivity]).
  assert (Hu : unit_size 2) by (right; left; reflexivity).
  pose proof (frame_fields_read_back READ 0x20002000 255 0xBEEF 2 Hc Ha Hl Hu)
    as (_ & A & _ & L & _).
  split; [exact Hc|]. split; [exact Ha|]. split; [exact Hl|].
  split; [exact Hu|]. split; [exact A | exact L].
Defined.

(** ** The range of a unit read *)

Lemma byte_val_range (b : byte) : 0 <= byte_val b < 256.
Proof. unfold byte_val. pose proof (Byte.to_N_bounded b). lia. Qed.

Lemma le_value_range (s : bytes) :
  0 <= le_value s < 256 ^ Z.of_nat (List.length s).
Proof.
  induction s as [|b s IH]; [cbn; lia|].
  cbn [le_value List.length]. rewrite Nat2Z.inj_succ, Z.pow_succ_r by lia.
  pose proof (byte_val_range b). lia.
Qed.

Lemma decode_range (o : endian) (s : bytes) :
  0 <= decode o s < 256 ^ Z.of_nat (List.length s).
Proof.
  destruct o; cbn [decode]; [apply le_value_range|].
  unfold be_value. rewrite <- (length_rev s). apply le_value_range.
Qed.

(** A unit read that returns has read exactly [dlen] bytes and returns a
    value in [[0, 2^(8*dlen))]; on every host the byte read and the word read
    return the little-endian value of those bytes. *)
Theorem readUnit_value_range {D : Type} `{Serial D}
    (host : endian) (cmd : string) (addr dlen v : Z) (w : world D) :
  unit_size dlen ->
  result (_readUnit host cmd addr dlen w) = inr v ->
  exists data,
    read_data (trace (_readUnit host cmd addr dlen w)) = [data] /\
    Z.of_nat (List.length data) = dlen /\
    0 <= v < 2 ^ (8 * dlen) /\
    (dlen <> 2 -> v = le_value data) /\
    (dlen = 2 -> v = decode host data).
Proof.
  intros Hu Hv.
  assert (Hnz : dlen <> 0) by (destruct Hu as [->|[->| ->]]; lia).
  destruct (_readUnit_cases host cmd addr dlen w Hnz) as [Ht Hr].
  cbn zeta in Ht, Hr. rewrite Hr in Hv.
  destruct (unit_format_unit dlen Hu) as (f & Ef & Hf). rewrite Ef in Hv.
  exists (fst (ser_read dlen (after_command cmd addr dlen w))).
  destruct (fst (ser_read dlen (after_command cmd addr dlen w))) as [|b data];
    [discriminate Hv|].
  unfold struct_unpack in Hv.
  destruct (Nat.eqb (List.length (b :: data)) (calcsize f)) eqn:El;
    [|discriminate Hv].
  apply Nat.eqb_eq in El. injection Hv as <-.
  split; [rewrite Ht; reflexivity|].
  split; [rewrite El; exact Hf|].
  split.
  - pose proof (decode_range (byte_order host f) (b :: data)) as R.
    rewrite El, Hf in R.
    replace (2 ^ (8 * dlen)) with (256 ^ dlen); [exact R|].
    destruct Hu as [->|[->| ->]]; reflexivity.
  - split; intros Hd.
    + destruct f; cbn in Hf; try lia; cbn [byte_order decode]; [reflexivity|].
      cbn in El. destruct data; [|discriminate El].
      destruct host; reflexivity.
    + destruct f; cbn in Hf; try lia. reflexivity.
Qed.

Lemma readUnit_value_range_witness :
  unit_size 1 /\
  result (readByte BigEndian 0x20000000 (start [[xfe]])) = inr 254 /\
  0 <= 254 < 2 ^ (8 * 1).
Proof.
  assert (Hu : unit_size 1) by (left; reflexivity).
  assert (R : result (_readUnit BigEndian READ_OCTET 0x20000000 1 (start [[xfe]]))
              = inr 254) by reflexivity.
  destruct (readUnit_value_range BigEndian READ_OCTET 0x20000000 1 254
              (start [[xfe]]) Hu R) as (data & _ & _ & B & _).
  split; [exact Hu|]. split; [exact R | exact B].
Defined.

(** ** What a bulk write puts on the line *)

Lemma firstn_plus {A : Type} (a b : nat) (l : list A) :
  firstn (a + b) l = firstn a l ++ firstn b (skipn a l).
Proof.
  revert l. induction a as [|a IH]; intros l; [reflexivity|].
  destruct l as [|x l]; cbn; [now rewrite firstn_nil | now rewrite IH].
Qed.

Lemma written_write_chunks (base : Z) (data : bytes) (plan : list (Z * Z)) :
  written (flat_map (write_chunk_calls base data) plan) =
  flat_map (fun c => [write_chunk_frame c;
                      slice data (fst c - base) (fst c - base + snd c)]) plan.
Proof.
  induction plan as [|[a n] plan IH]; [reflexivity|].
  cbn [flat_map]. rewrite written_app, IH. reflexivity.
Qed.

Lemma odd_items_pairs {A B : Type} (f g : A -> B) (l : list A) :
  odd_items (flat_map (fun c => [f c; g c]) l) = map g l.
Proof. induction l as [|x l IH]; [reflexivity|]. cbn. now rewrite IH. Qed.

Lemma even_items_pairs {A B : Type} (f g : A -> B) (l : list A) :
  even_items (flat_map (fun c => [f c; g c]) l) = map f l.
Proof. induction l as [|x l IH]; [reflexivity|]. cbn. now rewrite IH. Qed.

(** The slices of a plan that starts [off] bytes into the data, put end to
    end, are the data from there on, as far as the plan reaches. *)
Lemma slices_of_plan (base : Z) (data : bytes) (n : nat) :
  forall a r,
    0 <= r -> 0 <= a - base ->
    List.concat
      (map (fun c => slice data (fst c - base) (fst c - base + snd c))
           (chunk_plan_from n a r)) =
    firstn (Z.to_nat (Z.min r (MAX_PAYLOAD * Z.of_nat n)))
           (skipn (Z.to_nat (a - base)) data).
Proof.
  induction n as [|n IH]; intros a r Hr Ha.
  - cbn [chunk_plan_from map List.concat]. change (Z.of_nat 0) with 0.
    rewrite Z.mul_0_r, Z.min_r by lia. reflexivity.
  - cbn [chunk_plan_from map List.concat fst snd].
    set (len := Z.min MAX_PAYLOAD r).
    assert (Hlen : 0 <= len <= r) by (unfold len, MAX_PAYLOAD; lia).
    rewrite IH by lia.
    unfold slice.
    replace (a - base + len - (a - base)) with len by lia.
    replace (Z.to_nat (a + len - base))
      with (Z.to_nat len + Z.to_nat (a - base))%nat by lia.
    rewrite <- skipn_skipn, <- firstn_plus. f_equal.
    unfold len, MAX_PAYLOAD in *. lia.
Qed.

Lemma slice_lengths_of_plan (base : Z) (data : bytes) (n : nat) :
  forall a r,
    0 <= r -> 0 <= a - base ->
    a - base + r = Z.of_nat (List.length data) ->
    map (fun c => Z.of_nat (List.length
                   (slice data (fst c - base) (fst c - base + snd c))))
        (chunk_plan_from n a r) =
    map snd (chunk_plan_from n a r).
Proof.
  induction n as [|n IH]; intros a r Hr Ha Hsum; [reflexivity|].
  cbn [chunk_plan_from map fst snd].
  set (len := Z.min MAX_PAYLOAD r).
  assert (Hlen : 0 <= len <= r) by (unfold len, MAX_PAYLOAD; lia).
  rewrite IH by lia. f_equal.
  unfold slice. rewrite length_firstn, length_skipn. lia.
Qed.

(** [sendFile] puts every byte of the data on the line exactly once and in
    order: its payload writes, put end to end, are the data; each payload is
    as long as the command before it advertises and at most [MAX_PAYLOAD]
    bytes; and a bulk write never reads from the port. *)
Theorem sendFile_sends_the_data {D : Type} `{Serial D}
    (addr : Z) (data : bytes) (w : world D) :
  let t := trace (sendFile addr data w) in
  let plan := chunk_plan addr (Z.of_nat (List.length data)) in
  List.concat (payloads t) = data /\
  even_items (written t) = map write_chunk_frame plan /\
  map (fun p => Z.of_nat (List.length p)) (payloads t) = map snd plan /\
  Forall (fun p => Z.of_nat (List.length p) <= MAX_PAYLOAD) (payloads t) /\
  read_sizes t = [].
Proof.
  intros t plan. subst t. destruct (sendFile_run addr data w) as [_ St].
  rewrite St. fold plan. unfold payloads.
  rewrite written_write_chunks, odd_items_pairs, even_items_pairs.
  assert (HL : 0 <= Z.of_nat (List.length data)) by lia.
  assert (Lens : map (fun p => Z.of_nat (List.length p))
                   (map (fun c => slice data (fst c - addr) (fst c - addr + snd c)) plan)
                 = map snd plan).
  { rewrite map_map. unfold plan, chunk_plan.
    apply slice_lengths_of_plan; lia. }
  repeat split.
  - unfold plan, chunk_plan. rewrite slices_of_plan by lia.
    rewrite Z.sub_diag. cbn [Z.to_nat skipn].
    apply firstn_all2.
    pose proof (ceil_div_spec (Z.of_nat (List.length data))) as C.
    unfold MAX_PAYLOAD in *.
    rewrite Z2Nat.id by lia.
    lia.
  - exact Lens.
  - apply Forall_forall. intros p Hp.
    apply (in_map (fun p => Z.of_nat (List.length p))) in Hp.
    rewrite Lens in Hp. apply in_map_iff in Hp. destruct Hp as ([a n] & E & Hin).
    cbn in E. rewrite <- E. clear E p.
    unfold plan, chunk_plan in Hin.
    revert Hin. generalize (Z.to_nat (ceil_div (Z.of_nat (List.length data)) MAX_PAYLOAD)).
    generalize (Z.of_nat (List.length data)) at 1. generalize addr at 1.
    intros a0 r0 k. revert a0 r0.
    induction k as [|k IH]; intros a0 r0 Hin; [destruct Hin|].
    cbn [chunk_plan_from] in Hin. destruct Hin as [E|Hin].
    + injection E as _ <-. lia.
    + exact (IH _ _ Hin).
  - clear. induction plan as [|[a n] plan IH]; [reflexivity|].
    cbn [flat_map]. rewrite read_sizes_app, IH. reflexivity.
Qed.

(** ** Bulk reads *)

(** A bulk read of at most [MAX_PAYLOAD] bytes is one command and one read:
    the command advertises [L] bytes, the read asks for [L] bytes, and the
    result is what that read delivered, or [TimeoutError] when it delivered
    nothing. *)
Theorem receiveFile_within_one_chunk {D : Type} `{Serial D}
    (addr L : Z) (w : world D) :
  0 < L <= MAX_PAYLOAD ->
  let frame := str_bytes (bulk_frame READ addr L) in
  let data := fst (ser_read L (ser_write frame (device w))) in
  trace (receiveFile addr L w) = [SerWrite frame; SerRead L data] /\
  result (receiveFile addr L w) =
    match data with
    | [] => inl (TimeoutError L 0)
    | _ :: _ => inr data
    end.
Proof.
  intros HL frame data.
  assert (Hnz : (L =? 0) = false) by (apply Z.eqb_neq; lia).
  destruct (Z.eq_dec L MAX_PAYLOAD) as [E|Hne].
  - subst L. unfold receiveFile.
    change (MAX_PAYLOAD / MAX_PAYLOAD) with 1.
    change (MAX_PAYLOAD mod MAX_PAYLOAD) with 0.
    change (Z.to_nat 1) with 1%nat. cbn [receiveFile_loop Z.eqb]. fold frame.
    unfold bind, Port_write, on_serial, ret, Port_read. rewrite Hnz.
    cbn [result after trace device opened].
    subst data.
    destruct (ser_read MAX_PAYLOAD (ser_write frame (device w))) as [data d'].
    cbn [fst]. destruct data as [|b data]; cbn; split; reflexivity.
  - unfold receiveFile.
    rewrite Z.div_small, Z.mod_small by lia.
    rewrite Hnz. cbn [Z.to_nat receiveFile_loop].
    unfold bind, Port_write, on_serial, ret, Port_read. rewrite Hnz.
    cbv beta iota zeta. cbn [result after trace device opened app].
    fold frame. subst data.
    destruct (ser_read L (ser_write frame (device w))) as [data d'].
    cbn [fst]. destruct data as [|b data]; cbn; split; reflexivity.
Qed.

Lemma receiveFile_within_one_chunk_witness :
  0 < 3 <= MAX_PAYLOAD /\
  trace (receiveFile 0x20002000 3 (start [[x0a; x0b; x0c]])) =
    [SerWrite (str_bytes (bulk_frame READ 0x20002000 3));
     SerRead 3 [x0a; x0b; x0c]].
Proof.
  assert (HL : 0 < 3 <= MAX_PAYLOAD) by (split; [reflexivity | discriminate]).
  split; [exact HL|].
  exact (proj1 (receiveFile_within_one_chunk 0x20002000 3
                  (start [[x0a; x0b; x0c]]) HL)).
Defined.

Lemma read_data_sizes_length (cs : list call) :
  List.length (read_data cs) = List.length (read_sizes cs).
Proof.
  unfold read_data, read_sizes.
  induction cs as [|c cs IH]; [reflexivity|].
  destruct c; cbn; try exact IH. now rewrite IH.
Qed.

Lemma no_empty_read (cs : list call) :
  existsb empty_read cs = false -> Forall (fun d => d <> []) (read_data cs).
Proof.
  unfold read_data.
  induction cs as [|c cs IH]; intros E; [constructor|].
  cbn in E. apply orb_false_iff in E. destruct E as [Ec Ecs].
  destruct c as [d|n d| | |]; cbn; try (apply IH, Ecs).
  constructor; [|apply IH, Ecs].
  destruct d; [discriminate Ec | discriminate].
Qed.

(** A bulk read that returns, returns exactly what its reads delivered, put
    end to end in the order of the reads; there is one read per chunk of the
    plan, none of them came back empty, and a transfer of zero bytes returns
    the empty buffer. *)
Theorem receiveFile_returns_what_was_read {D : Type} `{Serial D}
    (addr L : Z) (w : world D) (res : bytes) :
  0 <= L ->
  result (receiveFile addr L w) = inr res ->
  let reads := read_data (trace (receiveFile addr L w)) in
  res = List.concat reads /\
  Z.of_nat (List.length reads) = ceil_div L MAX_PAYLOAD /\
  Forall (fun d => d <> []) reads /\
  (L = 0 -> res = []).
Proof.
  intros HL Hres reads. subst reads.
  pose proof (receiveFile_run addr L w HL) as R. cbn zeta in R.
  rewrite Hres in R. destruct R as (_ & Hs & Hc & He).
  repeat split.
  - exact Hc.
  - rewrite read_data_sizes_length, Hs, length_app, repeat_length, ceil_div_split.
    assert (0 <= L / MAX_PAYLOAD) by (apply Z.div_pos; unfold MAX_PAYLOAD; lia).
    destruct (L mod MAX_PAYLOAD =? 0); cbn [List.length]; lia.
  - apply no_empty_read, He.
  - intros ->. cbn in Hres. now injection Hres as <-.
Qed.

Lemma receiveFile_returns_what_was_read_witness :
  0 <= 4 /\
  result (receiveFile CHIP_ID_ADDR 4 (start [[xe0; x0a; x0b; xab]]))
    = inr [xe0; x0a; x0b; xab] /\
  [xe0; x0a; x0b; xab] =
    List.concat (read_data (trace (receiveFile CHIP_ID_ADDR 4
                                     (start [[xe0; x0a; x0b; xab]])))).
Proof.
  assert (HL : 0 <= 4) by discriminate.
  assert (R : result (receiveFile CHIP_ID_ADDR 4 (start [[xe0; x0a; x0b; xab]]))
              = inr [xe0; x0a; x0b; xab]) by reflexivity.
  split; [exact HL|]. split; [exact R|].
  exact (proj1 (receiveFile_returns_what_was_read CHIP_ID_ADDR 4
                  (start [[xe0; x0a; x0b; xab]]) _ HL R)).
Defined.

(** ** What [chipInfo] reports *)

Section ChipInfoResult.

Context {D : Type} `{Serial D}.
Variable host : endian.

Lemma readLong_range (addr v : Z) (w : world D) :
  result (readLong host addr w) = inr v -> 0 <= v < 2 ^ 32.
Proof.
  intros Hv.
  destruct (_readUnit_cases host READ_WORD addr 4 w ltac:(discriminate)) as [_ Hr].
  cbn zeta in Hr. unfold readLong in Hv. rewrite Hr in Hv.
  destruct (fst (ser_read 4 (after_command READ_WORD addr 4 w))) as [|b data];
    [discriminate Hv|].
  cbn [unit_format Z.eqb Pos.eqb struct_unpack calcsize] in Hv.
  destruct (Nat.eqb (List.length (b :: data)) 4) eqn:El; [|discriminate Hv].
  apply Nat.eqb_eq in El. injection Hv as <-.
  pose proof (le_value_range (b :: data)) as R. rewrite El in R. exact R.
Qed.

Lemma chipInfo_chipId_raises (w : world D) (e : exn) :
  result (chipId host w) = inl e ->
  result (chipInfo host w) = inl e /\
  trace (chipInfo host w) = trace (chipId host w).
Proof.
  intros He. unfold chipInfo.
  match goal with
  | |- context [bind ?m ?k w] => destruct (bind_raise m k w e He) as (-> & -> & _)
  end.
  split; reflexivity.
Qed.

Lemma chipInfo_exId_raises (w : world D) (id : Z) (e : exn) :
  result (chipId host w) = inr id ->
  Z.testbit id 31 = true ->
  result (exId host (after (chipId host w))) = inl e ->
  result (chipInfo host w) = inl e.
Proof.
  intros Hid Hbit Hex. unfold chipInfo.
  match goal with
  | |- context [bind ?m ?k w] => destruct (bind_ok m k w id Hid) as (-> & _ & _)
  end.
  cbv beta. rewrite land_EXT, Hbit.
  set (w1 := after (chipId host w)) in *.
  match goal with
  | |- context [bind (bind ?m ?k) ?k' w1] =>
      destruct (bind_raise m k w1 e Hex) as (E1 & _ & _);
      destruct (bind_raise (bind m k) k' w1 e E1) as (-> & _ & _)
  end.
  reflexivity.
Qed.

(** Whenever [chipInfo] returns, the chip-ID read has returned, and the
    fields that come from the chip ID are those of the record below. *)
Lemma chipInfo_returns (w : world D) (dc : DeviceCapabilities) :
  result (chipInfo host w) = inr dc ->
  exists id,
    result (chipId host w) = inr id /\
    0 <= id < 2 ^ 32 /\
    friendlyName dc = dict_get FriendlyNames id "*** Unknown ***" /\
    nvpType dc = dict_get NvpTypes (Z.shiftr (Z.land id Mask.NVPTYP) 28) (Text "*** Unknown ***") /\
    architecture dc = dict_get Archs (Z.shiftr (Z.land id Mask.ARCH) 20) (Text "*** Unknown ***") /\
    sramSize dc = dict_get SRamSizes (Z.shiftr (Z.land id Mask.SRAMSIZ) 16) (Text "*** Unknown ***") /\
    nvpSize0 dc = dict_get NvpSizes (Z.shiftr (Z.land id Mask.NVPSIZ) 8) (Text "*** Unknown ***") /\
    nvpSize1 dc = dict_get NvpSiz2s (Z.shiftr (Z.land id Mask.NVPSIZ2) 12) (Text "*** Unknown ***") /\
    processor dc = dict_get EProcs (Z.shiftr (Z.land id Mask.EPROC) 5) (Text "*** Unknown ***") /\
    dc_version dc = Z.land id Mask.VERSION /\
    ext dc = Z.testbit id 31.
Proof.
  intros Hdc.
  destruct (result (chipId host w)) as [e|id] eqn:Hid.
  - destruct (chipInfo_chipId_raises w e Hid) as [F _]. congruence.
  - exists id. split; [reflexivity|].
    split; [exact (readLong_range CHIP_ID_ADDR id w Hid)|].
    destruct (Z.testbit id 31) eqn:Hbit.
    + destruct (result (exId host (after (chipId host w)))) as [e|exid] eqn:Hex.
      * pose proof (chipInfo_exId_raises w id e Hid Hbit Hex). congruence.
      * destruct (chipInfo_with_ext host w id exid Hid Hbit Hex) as [_ Hr].
        rewrite Hr in Hdc. injection Hdc as <-. repeat split.
    + destruct (chipInfo_without_ext host w id Hid Hbit) as [_ Hr].
      rewrite Hr in Hdc. injection Hdc as <-. repeat split.
Qed.

End ChipInfoResult.

Lemma field_bits (id mask shift width : Z) :
  0 <= shift -> 0 <= width ->
  Z.shiftr mask shift = Z.ones width ->
  Z.shiftr (Z.land id mask) shift = (id / 2 ^ shift) mod 2 ^ width.
Proof.
  intros Hs Hw Hm.
  rewrite Z.shiftr_land, Hm, Z.land_ones, Z.shiftr_div_pow2 by assumption.
  reflexivity.
Qed.

(** The fields of a reported record are the bit ranges of the chip ID that
    was read: extended flag bit 31, NVM type bits 28-30, architecture bits
    20-27, SRAM size bits 16-19, second NVM size bits 12-15, NVM size bits
    8-11, processor bits 5-7, version bits 0-4; each of them, except the
    flag and the version, looked up in its table. *)
Theorem chipInfo_fields_are_bit_ranges {D : Type} `{Serial D}
    (host : endian) (w : world D) (dc : DeviceCapabilities) :
  result (chipInfo host w) = inr dc ->
  exists id,
    result (chipId host w) = inr id /\
    0 <= id < 2 ^ 32 /\
    ext dc = Z.testbit id 31 /\
    nvpType dc = dict_get NvpTypes ((id / 2 ^ 28) mod 2 ^ 3) (Text "*** Unknown ***") /\
    architecture dc = dict_get Archs ((id / 2 ^ 20) mod 2 ^ 8) (Text "*** Unknown ***") /\
    sramSize dc = dict_get SRamSizes ((id / 2 ^ 16) mod 2 ^ 4) (Text "*** Unknown ***") /\
    nvpSize1 dc = dict_get NvpSiz2s ((id / 2 ^ 12) mod 2 ^ 4) (Text "*** Unknown ***") /\
    nvpSize0 dc = dict_get NvpSizes ((id / 2 ^ 8) mod 2 ^ 4) (Text "*** Unknown ***") /\
    processor dc = dict_get EProcs ((id / 2 ^ 5) mod 2 ^ 3) (Text "*** Unknown ***") /\
    dc_version dc = id mod 2 ^ 5.
Proof.
  intros Hdc.
  destruct (chipInfo_returns host w dc Hdc)
    as (id & Hid & Hr & _ & Ht & Ha & Hs & H0 & H1 & Hp & Hv & He).
  exists id. split; [exact Hid|]. split; [exact Hr|]. split; [exact He|].
  rewrite Ht, Ha, Hs, H0, H1, Hp, Hv.
  rewrite (field_bits id Mask.NVPTYP 28 3), (field_bits id Mask.ARCH 20 8),
    (field_bits id Mask.SRAMSIZ 16 4), (field_bits id Mask.NVPSIZ2 12 4),
    (field_bits id Mask.NVPSIZ 8 4), (field_bits id Mask.EPROC 5 3)
    by (reflexivity || lia).
  change Mask.VERSION with (Z.ones 5). rewrite Z.land_ones by lia.
  repeat split.
Qed.

Lemma chipInfo_fields_are_bit_ranges_witness :
  result (chipInfo LittleEndian (start [[xe3; x0a; x0b; x2b]]))
    = inr (mkDeviceCapabilities
             "*** Unknown ***"
             (Info "FLASH" "Embedded Flash Memory")
             (Info "SAM4L" "SAM4Lxx Series")
             (Info "64K" "64K bytes")
             (Info "512K" "512K bytes")
             (Info "None" "None")
             (Info "CM4" "Cortex-M4")
             3 false "*** Reserved ***" false false false false) /\
  exists id,
    result (chipId LittleEndian (start [[xe3; x0a; x0b; x2b]])) = inr id /\
    3 = id mod 2 ^ 5.
Proof.
  assert (R : result (chipInfo LittleEndian (start [[xe3; x0a; x0b; x2b]]))
    = inr (mkDeviceCapabilities
             "*** Unknown ***"
             (Info "FLASH" "Embedded Flash Memory")
             (Info "SAM4L" "SAM4Lxx Series")
             (Info "64K" "64K bytes")
             (Info "512K" "512K bytes")
             (Info "None" "None")
             (Info "CM4" "Cortex-M4")
             3 false "*** Reserved ***" false false false false)) by reflexivity.
  split; [exact R|].
  destruct (chipInfo_fields_are_bit_ranges LittleEndian _ _ R)
    as (id & Hid & _ & _ & _ & _ & _ & _ & _ & _ & Hv).
  exists id. split; [exact Hid | exact Hv].
Defined.

Lemma nibble_cases (k : Z) :
  0 <= k < 16 ->
  k = 0 \/ k = 1 \/ k = 2 \/ k = 3 \/ k = 4 \/ k = 5 \/ k = 6 \/ k = 7 \/
  k = 8 \/ k = 9 \/ k = 10 \/ k = 11 \/ k = 12 \/ k = 13 \/ k = 14 \/ k = 15.
Proof. lia. Qed.

(** The three size tables cover every code a four-bit field can hold, so a
    reported SRAM size and both NVM sizes are always table entries, never the
    ["*** Unknown ***"] default; the version is below 32.  The processor is
    the default exactly when bits 5-7 of the chip ID are zero, and the NVM
    type exactly when bits 28-30 hold 5, 6 or 7. *)
Theorem chipInfo_size_classes_always_known {D : Type} `{Serial D}
    (host : endian) (w : world D) (dc : DeviceCapabilities) :
  result (chipInfo host w) = inr dc ->
  (exists name description, sramSize dc = Info name description) /\
  (exists name description, nvpSize0 dc = Info name description) /\
  (exists name description, nvpSize1 dc = Info name description) /\
  0 <= dc_version dc < 32 /\
  exists id,
    result (chipId host w) = inr id /\
    (processor dc = Text "*** Unknown ***" <-> (id / 2 ^ 5) mod 2 ^ 3 = 0) /\
    (nvpType dc = Text "*** Unknown ***" <-> 5 <= (id / 2 ^ 28) mod 2 ^ 3).
Proof.
  intros Hdc.
  destruct (chipInfo_returns host w dc Hdc)
    as (id & Hid & Hr & _ & Ht & _ & Hs & H0 & H1 & Hp & Hv & _).
  rewrite Hs, H0, H1, Hv, Hp, Ht.
  rewrite (field_bits id Mask.NVPTYP 28 3), (field_bits id Mask.SRAMSIZ 16 4),
    (field_bits id Mask.NVPSIZ2 12 4), (field_bits id Mask.NVPSIZ 8 4),
    (field_bits id Mask.EPROC 5 3) by (reflexivity || lia).
  change Mask.VERSION with (Z.ones 5). rewrite Z.land_ones by lia.
  repeat split.
  - pose proof (nibble_cases ((id / 2 ^ 16) mod 2 ^ 4)
                ltac:(apply Z.mod_pos_bound; reflexivity)) as C.
    repeat (destruct C as [->|C]; [do 2 eexists; reflexivity|]).
    rewrite C. do 2 eexists; reflexivity.
  - pose proof (nibble_cases ((id / 2 ^ 8) mod 2 ^ 4)
                ltac:(apply Z.mod_pos_bound; reflexivity)) as C.
    repeat (destruct C as [->|C]; [do 2 eexists; reflexivity|]).
    rewrite C. do 2 eexists; reflexivity.
  - pose proof (nibble_cases ((id / 2 ^ 12) mod 2 ^ 4)
                ltac:(apply Z.mod_pos_bound; reflexivity)) as C.
    repeat (destruct C as [->|C]; [do 2 eexists; reflexivity|]).
    rewrite C. do 2 eexists; reflexivity.
  - apply Z.mod_pos_bound. reflexivity.
  - apply Z.mod_pos_bound. reflexivity.
  - exists id. split; [exact Hid|].
    pose proof (Z.mod_pos_bound (id / 2 ^ 5) (2 ^ 3) ltac:(reflexivity)) as Bp.
    pose proof (Z.mod_pos_bound (id / 2 ^ 28) (2 ^ 3) ltac:(reflexivity)) as Bt.
    change (2 ^ 3) with 8 in *.
    split; split.
    + intros E.
      assert (C : let k := (id / 2 ^ 5) mod 8 in
                  k = 0 \/ k = 1 \/ k = 2 \/ k = 3 \/ k = 4 \/ k = 5 \/ k = 6 \/ k = 7)
        by (cbn zeta; lia).
      cbn zeta in C. destruct C as [C|C]; [exact C|].
      repeat (destruct C as [C|C]; [rewrite C in E; discriminate E|]).
      rewrite C in E. discriminate E.
    + intros ->. reflexivity.
    + intros E.
      assert (C : let k := (id / 2 ^ 28) mod 8 in
                  k = 0 \/ k = 1 \/ k = 2 \/ k = 3 \/ k = 4 \/ 5 <= k)
        by (cbn zeta; lia).
      cbn zeta in C.
      repeat (destruct C as [C|C]; [rewrite C in E; discriminate E|]).
      exact C.
    + intros G.
      assert (C : let k := (id / 2 ^ 28) mod 8 in k = 5 \/ k = 6 \/ k = 7)
        by (cbn zeta; lia).
      cbn zeta in C. destruct C as [->|[->| ->]]; reflexivity.
Qed.

Lemma chipInfo_size_classes_always_known_witness :
  result (chipInfo LittleEndian (start [[x00; x00; x00; x00]]))
    = inr (mkDeviceCapabilities
             "*** Unknown ***" (Info "ROM" "ROM") (Text "*** Unknown ***")
             (Info "48K" "48K bytes") (Info "NONE" "None") (Info "None" "None")
             (Text "*** Unknown ***")
             0 false "*** Reserved ***" false false false false) /\
  exists name description, Info "48K" "48K bytes" = Info name description.
Proof.
  assert (R : result (chipInfo LittleEndian (start [[x00; x00; x00; x00]]))
    = inr (mkDeviceCapabilities
             "*** Unknown ***" (Info "ROM" "ROM") (Text "*** Unknown ***")
             (Info "48K" "48K bytes") (Info "NONE" "None") (Info "None" "None")
             (Text "*** Unknown ***")
             0 false "*** Reserved ***" false false false false)) by reflexivity.
  split; [exact R|].
  exact (proj1 (chipInfo_size_classes_always_known LittleEndian _ _ R)).
Defined.

Lemma FriendlyNames_get (id : Z) :
  dict_get FriendlyNames id "*** Unknown ***" =
  if id =? 0xAB0B0AE0 then "ATSAM4LS8A"
  else if id =? 0xAB0A09E0 then "ATSAM4LS4A"
  else if id =? 0xAB0A07E0 then "ATSAM4LS2A"
  else "*** Unknown ***".
Proof.
  destruct (Z.eq_dec id 0xAB0B0AE0) as [->|N1]; [reflexivity|].
  destruct (Z.eq_dec id 0xAB0A09E0) as [->|N2]; [reflexivity|].
  destruct (Z.eq_dec id 0xAB0A07E0) as [->|N3]; [reflexivity|].
  assert (E1 : (0xAB0B0AE0 =? id) = false) by (apply Z.eqb_neq; lia).
  assert (E2 : (0xAB0A09E0 =? id) = false) by (apply Z.eqb_neq; lia).
  assert (E3 : (0xAB0A07E0 =? id) = false) by (apply Z.eqb_neq; lia).
  rewrite (Z.eqb_sym id 0xAB0B0AE0), (Z.eqb_sym id 0xAB0A09E0),
    (Z.eqb_sym id 0xAB0A07E0), E1, E2, E3.
  unfold dict_get, FriendlyNames. cbn [dict_lookup].
  rewrite E1, E2, E3. reflexivity.
Qed.

(** Of the eighteen entries of the friendly-name table only the last one of
    each of its three keys is ever reported: a chip is named [ATSAM4LS8A],
    [ATSAM4LS4A] or [ATSAM4LS2A] for the chip IDs [0xAB0B0AE0], [0xAB0A09E0]
    and [0xAB0A07E0], and ["*** Unknown ***"] for every other ID; none of the
    fifteen other names of the table can come out. *)
Theorem chipInfo_friendly_name {D : Type} `{Serial D}
    (host : endian) (w : world D) (dc : DeviceCapabilities) :
  result (chipInfo host w) = inr dc ->
  exists id,
    result (chipId host w) = inr id /\
    friendlyName dc =
      (if id =? 0xAB0B0AE0 then "ATSAM4LS8A"
       else if id =? 0xAB0A09E0 then "ATSAM4LS4A"
       else if id =? 0xAB0A07E0 then "ATSAM4LS2A"
       else "*** Unknown ***") /\
    In (friendlyName dc)
       ["ATSAM4LS8A"; "ATSAM4LS4A"; "ATSAM4LS2A"; "*** Unknown ***"].
Proof.
  intros Hdc.
  destruct (chipInfo_returns host w dc Hdc) as (id & Hid & _ & Hn & _).
  exists id. split; [exact Hid|].
  rewrite Hn, FriendlyNames_get. split; [reflexivity|].
  destruct (id =? 0xAB0B0AE0); [cbn; tauto|].
  destruct (id =? 0xAB0A09E0); [cbn; tauto|].
  destruct (id =? 0xAB0A07E0); cbn; tauto.
Qed.

Lemma chipInfo_friendly_name_witness :
  result (chipId BigEndian (start [[xe0; x09; x0a; xab]; [x00; x00; x00; x02]]))
    = inr 0xAB0A09E0 /\
  exists dc,
    result (chipInfo BigEndian (start [[xe0; x09; x0a; xab]; [x00; x00; x00; x02]]))
      = inr dc /\
    In (friendlyName dc)
       ["ATSAM4LS8A"; "ATSAM4LS4A"; "ATSAM4LS2A"; "*** Unknown ***"].
Proof.
  split; [reflexivity|].
  destruct (result (chipInfo BigEndian
                      (start [[xe0; x09; x0a; xab]; [x00; x00; x00; x02]])))
    as [e|dc] eqn:R; [discriminate R|].
  exists dc. split; [reflexivity|].
  destruct (chipInfo_friendly_name BigEndian _ dc R) as (id & _ & _ & Hin).
  exact Hin.
Defined.

(** [chipInfo] only ever sends read-word commands and reads four bytes
    after each: the one for the chip-ID register and, exactly when that read
    returned a value with bit 31 set, the one for the extended register.  It
    writes no register, flushes nothing, and fails with the exception of the
    read that failed. *)
Theorem chipInfo_calls {D : Type} `{Serial D} (host : endian) (w : world D) :
  let second :=
    match result (chipId host w) with
    | inr id => Z.testbit id 31
    | inl _ => false
    end in
  trace (chipInfo host w) =
    trace (chipId host w) ++
    (if second then trace (exId host (after (chipId host w))) else []) /\
  written (trace (chipInfo host w)) =
    str_bytes (read_unit_frame READ_WORD CHIP_ID_ADDR 4) ::
    (if second then [str_bytes (read_unit_frame READ_WORD EX_ID_ADDR 4)] else []) /\
  read_sizes (trace (chipInfo host w)) = 4 :: (if second then [4] else []) /\
  List.length (trace (chipInfo host w)) = (if second then 4 else 2)%nat /\
  (forall e, result (chipId host w) = inl e -> result (chipInfo host w) = inl e) /\
  (forall e, second = true ->
     result (exId host (after (chipId host w))) = inl e ->
     result (chipInfo host w) = inl e).
Proof.
  intros second.
  destruct (readLong_calls host CHIP_ID_ADDR w) as [Cw Cs].
  destruct (readLong_calls host EX_ID_ADDR (after (chipId host w))) as [Ew Es].
  fold (chipId host w) in Cw, Cs. fold (exId host (after (chipId host w))) in Ew, Es.
  assert (Cl : List.length (trace (chipId host w)) = 2%nat).
  { unfold chipId, readLong.
    destruct (_readUnit_cases host READ_WORD CHIP_ID_ADDR 4 w ltac:(discriminate))
      as [Ht _]. cbn zeta in Ht. rewrite Ht. reflexivity. }
  assert (El : List.length (trace (exId host (after (chipId host w)))) = 2%nat).
  { unfold exId, readLong.
    destruct (_readUnit_cases host READ_WORD EX_ID_ADDR 4 (after (chipId host w))
                ltac:(discriminate)) as [Ht _].
    cbn zeta in Ht. rewrite Ht. reflexivity. }
  assert (T : trace (chipInfo host w) =
              trace (chipId host w) ++
              (if second then trace (exId host (after (chipId host w))) else [])).
  { subst second. destruct (result (chipId host w)) as [e|id] eqn:Hid.
    - rewrite app_nil_r. apply (chipInfo_chipId_raises host w e Hid).
    - destruct (Z.testbit id 31) eqn:Hbit.
      + apply (chipInfo_ext_calls host w id Hid Hbit).
      + rewrite app_nil_r. apply (chipInfo_without_ext host w id Hid Hbit). }
  split; [exact T|]. rewrite T, written_app, read_sizes_app, length_app, Cw, Cs, Cl.
  repeat split.
  - destruct second; [rewrite Ew|]; reflexivity.
  - destruct second; [rewrite Es|]; reflexivity.
  - destruct second; [rewrite El|]; reflexivity.
  - intros e He. apply (chipInfo_chipId_raises host w e He).
  - intros e Hs He. subst second.
    destruct (result (chipId host w)) as [e'|id] eqn:Hid; [discriminate Hs|].
    apply (chipInfo_exId_raises host w id e Hid Hs He).
Qed.

Lemma chipInfo_calls_witness :
  result (chipId LittleEndian (start [[xe0; x0a; x0b; xab]])) = inr 0xAB0B0AE0 /\
  result (exId LittleEndian
            (after (chipId LittleEndian (start [[xe0; x0a; x0b; xab]]))))
    = inl (TimeoutError 4 0) /\
  result (chipInfo LittleEndian (start [[xe0; x0a; x0b; xab]]))
    = inl (TimeoutError 4 0).
Proof.
  split; [reflexivity|]. split; [reflexivity|].
  exact (proj2 (proj2 (proj2 (proj2 (proj2
           (chipInfo_calls LittleEndian (start [[xe0; x0a; x0b; xab]]))))))
           (TimeoutError 4 0) eq_refl eq_refl).
Defined.

(** * The peripheral modules of [atenka-cl.py] *)

Module ClFacts.
Import Cl.

Lemma str_lookup_in {V : Type} (d : list (string * V)) (k : string) (v : V) :
  str_lookup d k = Some v -> In (k, v) d.
Proof.
  induction d as [|[k' v'] d IH]; cbn; [discriminate|].
  destruct (str_lookup d k) as [v0|].
  - intros E. right. apply IH. exact E.
  - destruct (String.eqb_spec k' k) as [->|]; [|discriminate].
    intros E. injection E as ->. left. reflexivity.
Qed.

Lemma key_injective {A : Type} (key : A -> Z) (l : list A) (a b : A) :
  NoDup (map key l) -> In a l -> In b l -> key a = key b -> a = b.
Proof.
  induction l as [|x l IH]; intros Hnd Ha Hb E; [destruct Ha|].
  cbn in Hnd. inversion Hnd as [|? ? Hx Hl]; subst.
  destruct Ha as [->|Ha], Hb as [->|Hb].
  - reflexivity.
  - exfalso. apply Hx. rewrite E. apply in_map, Hb.
  - exfalso. apply Hx. rewrite <- E. apply in_map, Ha.
  - apply IH; assumption.
Qed.

Ltac nodup_by_cases :=
  repeat (constructor;
          [cbn; intros C; repeat (destruct C as [C|C]; [discriminate C|]); exact C|]);
  constructor.

Lemma gpio_offsets_nodup :
  NoDup (map (fun kr : string * GPIORegister.t => GPIORegister.offset (snd kr))
             ModGPIO.REGISTERS).
Proof. cbn. nodup_by_cases. Qed.

Lemma gpio_offsets_in_block :
  Forall (fun kr : string * GPIORegister.t =>
            0 <= GPIORegister.offset (snd kr) < ModGPIO.REGISTER_BLOCK_SIZE /\
            GPIORegister.offset (snd kr) mod 4 = 0)
         ModGPIO.REGISTERS.
Proof. repeat constructor; cbn; discriminate. Qed.

Lemma namecheck_lookup (reg : string) :
  ModGPIO._namecheck reg =
  match str_lookup ModGPIO.REGISTERS reg with
  | Some _ => inr tt
  | None => inl (RegisterNotDefinedError reg)
  end.
Proof.
  unfold ModGPIO._namecheck, str_mem.
  destruct (str_lookup ModGPIO.REGISTERS reg); reflexivity.
Qed.

End ClFacts.

(** [ModGPIO.read] rejects a name that is not in the register table with
    [RegisterNotDefinedError] before anything is sent; for a name of the
    table it is one word read at [BASE_ADDRESS + inst * 0x200 + offset],
    whatever the access mode of the register, and it fails when that read
    fails. *)
Theorem ModGPIO_read_run {D : Type} `{Serial D}
    (host : endian) (inst : Z) (reg : string) (w : world D) :
  (Cl.str_lookup Cl.ModGPIO.REGISTERS reg = None ->
     result (Cl.ModGPIO.read host inst reg w)
       = inr (inl (Cl.RegisterNotDefinedError reg)) /\
     trace (Cl.ModGPIO.read host inst reg w) = []) /\
  (forall r, Cl.str_lookup Cl.ModGPIO.REGISTERS reg = Some r ->
     let addr := Cl.ModGPIO.BASE_ADDRESS + inst * 0x200 + Cl.GPIORegister.offset r in
     trace (Cl.ModGPIO.read host inst reg w) = trace (readLong host addr w) /\
     written (trace (Cl.ModGPIO.read host inst reg w)) =
       [str_bytes (read_unit_frame READ_WORD addr 4)] /\
     result (Cl.ModGPIO.read host inst reg w) =
       match result (readLong host addr w) with
       | inl e => inl e
       | inr v => inr (inr v)
       end).
Proof.
  split.
  - intros Hnone. unfold Cl.ModGPIO.read.
    rewrite ClFacts.namecheck_lookup, Hnone. split; reflexivity.
  - intros r Hsome addr. unfold Cl.ModGPIO.read.
    rewrite ClFacts.namecheck_lookup, Hsome.
    change (Cl.ModGPIO._baseAddress inst + Cl.GPIORegister.offset r) with addr.
    destruct (readLong_calls host addr w) as [Cw _].
    unfold bind.
    destruct (result (readLong host addr w)) as [e|v]; cbn [result trace ret].
    + repeat split; [exact Cw].
    + rewrite app_nil_r. repeat split; [exact Cw].
Qed.

Lemma ModGPIO_read_run_witness :
  Cl.str_lookup Cl.ModGPIO.REGISTERS "OSRR0T"
    = Some (Cl.GPIORegister.mk 0x13C "Output Slew Rate Register 0" None Cl.ACC_WO true) /\
  Cl.str_lookup Cl.ModGPIO.REGISTERS "GPRE" = None /\
  written (trace (Cl.ModGPIO.read LittleEndian Cl.ModGPIO.PB "OSRR0T" (start Silent))) =
    [str_bytes (read_unit_frame READ_WORD 0x400E133C 4)] /\
  result (Cl.ModGPIO.read LittleEndian Cl.ModGPIO.PA "GPRE" (start Silent))
    = inr (inl (Cl.RegisterNotDefinedError "GPRE")).
Proof.
  assert (L1 : Cl.str_lookup Cl.ModGPIO.REGISTERS "OSRR0T"
    = Some (Cl.GPIORegister.mk 0x13C "Output Slew Rate Register 0" None Cl.ACC_WO true))
    by reflexivity.
  assert (L2 : Cl.str_lookup Cl.ModGPIO.REGISTERS "GPRE" = None) by reflexivity.
  split; [exact L1|]. split; [exact L2|]. split.
  - exact (proj1 (proj2 (proj2 (ModGPIO_read_run LittleEndian Cl.ModGPIO.PB "OSRR0T"
                                  (start Silent)) _ L1))).
  - exact (proj1 (proj1 (ModGPIO_read_run LittleEndian Cl.ModGPIO.PA "GPRE"
                           (start Silent)) L2)).
Defined.

(** The register blocks of the GPIO instances do not overlap: every offset
    of the table is a multiple of four inside the block of [0x200] bytes,
    and two reads go to the same address only for the same instance and the
    same register name. *)
Theorem ModGPIO_addresses_distinct
    (inst1 inst2 : Z) (reg1 reg2 : string) (r1 r2 : Cl.GPIORegister.t) :
  Cl.str_lookup Cl.ModGPIO.REGISTERS reg1 = Some r1 ->
  Cl.str_lookup Cl.ModGPIO.REGISTERS reg2 = Some r2 ->
  (0 <= Cl.GPIORegister.offset r1 < Cl.ModGPIO.REGISTER_BLOCK_SIZE /\
   Cl.GPIORegister.offset r1 mod 4 = 0) /\
  (Cl.ModGPIO._baseAddress inst1 + Cl.GPIORegister.offset r1 =
   Cl.ModGPIO._baseAddress inst2 + Cl.GPIORegister.offset r2 ->
   inst1 = inst2 /\ reg1 = reg2).
Proof.
  intros H1 H2.
  apply ClFacts.str_lookup_in in H1, H2.
  pose proof ClFacts.gpio_offsets_in_block as B.
  rewrite Forall_forall in B.
  pose proof (B _ H1) as B1. pose proof (B _ H2) as B2. cbn [snd] in B1, B2.
  split; [exact B1|].
  unfold Cl.ModGPIO._baseAddress, Cl.ModGPIO.REGISTER_BLOCK_SIZE in *.
  intros E.
  assert (Ei : inst1 = inst2) by lia.
  split; [exact Ei|]. subst inst2.
  assert (Eo : Cl.GPIORegister.offset r1 = Cl.GPIORegister.offset r2) by lia.
  pose proof (ClFacts.key_injective
                (fun kr : string * Cl.GPIORegister.t => Cl.GPIORegister.offset (snd kr))
                Cl.ModGPIO.REGISTERS (reg1, r1) (reg2, r2)
                ClFacts.gpio_offsets_nodup H1 H2 Eo) as P.
  now injection P.
Qed.

Lemma ModGPIO_addresses_distinct_witness :
  Cl.str_lookup Cl.ModGPIO.REGISTERS "VERSION"
    = Some (Cl.GPIORegister.mk 0x1FC "Version Register" None Cl.ACC_RO false) /\
  Cl.str_lookup Cl.ModGPIO.REGISTERS "GPER"
    = Some (Cl.GPIORegister.mk 0x000 "GPIO Enable Register" None Cl.ACC_RW true) /\
  0 <= 0x1FC < Cl.ModGPIO.REGISTER_BLOCK_SIZE.
Proof.
  assert (L1 : Cl.str_lookup Cl.ModGPIO.REGISTERS "VERSION"
    = Some (Cl.GPIORegister.mk 0x1FC "Version Register" None Cl.ACC_RO false))
    by reflexivity.
  assert (L2 : Cl.str_lookup Cl.ModGPIO.REGISTERS "GPER"
    = Some (Cl.GPIORegister.mk 0x000 "GPIO Enable Register" None Cl.ACC_RW true))
    by reflexivity.
  split; [exact L1|]. split; [exact L2|].
  exact (proj1 (proj1 (ModGPIO_addresses_distinct Cl.ModGPIO.PA Cl.ModGPIO.PB
                         "VERSION" "GPER" _ _ L1 L2))).
Defined.

(** [ModGPIO.write], [set], [clear] and [toggle] never reach the port: they
    only check their register name and leave the state as it is.  [write]
    accepts every name of the table; [set], [clear] and [toggle] reject,
    with [InterfaceNotSupportedError], exactly the three registers without
    the set/clear/toggle interface, [PVR], [PARAMETER] and [VERSION]; all
    four reject an unknown name with [RegisterNotDefinedError], and the
    subscript in [_extInterfaceCheck] never raises [KeyError] behind the name
    check. *)
Theorem ModGPIO_write_methods_only_check {D : Type} `{Serial D}
    (inst : Z) (reg : string) (value : Z) (w : world D) :
  let known := Cl.str_mem Cl.ModGPIO.REGISTERS reg in
  let no_ext := existsb (String.eqb reg) ["PVR"; "PARAMETER"; "VERSION"] in
  Cl.ModGPIO.write inst reg value w =
    Run (inr (if known then inr tt else inl (Cl.RegisterNotDefinedError reg))) w [] /\
  Cl.ModGPIO.set_clear_toggle inst reg value w =
    Run (inr (if negb known then inl (Cl.RegisterNotDefinedError reg)
              else if no_ext then inl (Cl.InterfaceNotSupportedError reg)
              else inr tt)) w [] /\
  Cl.ModGPIO.set inst reg value w = Cl.ModGPIO.set_clear_toggle inst reg value w /\
  Cl.ModGPIO.clear inst reg value w = Cl.ModGPIO.set_clear_toggle inst reg value w /\
  Cl.ModGPIO.toggle inst reg value w = Cl.ModGPIO.set_clear_toggle inst reg value w.
Proof.
  intros known no_ext. subst known no_ext.
  split; [|split; [|repeat split]].
  - unfold Cl.ModGPIO.write. rewrite ClFacts.namecheck_lookup. unfold Cl.str_mem.
    destruct (Cl.str_lookup Cl.ModGPIO.REGISTERS reg); reflexivity.
  - unfold Cl.ModGPIO.set_clear_toggle.
    rewrite ClFacts.namecheck_lookup.
    unfold Cl.str_mem, Cl.ModGPIO._extInterfaceCheck.
    destruct (Cl.str_lookup Cl.ModGPIO.REGISTERS reg) as [r|] eqn:L;
      [|reflexivity].
    apply ClFacts.str_lookup_in in L. cbn [negb]. cbn in L.
    repeat (destruct L as [L|L]; [injection L as <- <-; reflexivity|]).
    destruct L.
Qed.

Lemma page_size_cases (k : Z) :
  0 <= k < 8 ->
  k = 0 \/ k = 1 \/ k = 2 \/ k = 3 \/ k = 4 \/ k = 5 \/ k = 6 \/ k = 7.
Proof. lia. Qed.

(** [flashParameters] prints three lines, the last one empty.  The page
    size it prints is always one of the eight sizes of its table, chosen by
    bits 8-10 of the value (the ["*** UNKNOWN ***"] default cannot come out);
    the flash size is chosen by the low byte and is ["Reserved"] for every
    low byte above 14. *)
Theorem flashParameters_lines (value : Z) :
  exists size page,
    Cl.ModFlash.flashParameters value =
      [ ("    Flash Size     : " ++ size)%string;
        ("    Flash Page Size: " ++ page)%string;
        "" ] /\
    dict_lookup Cl.ModFlash.PSZ ((value / 2 ^ 8) mod 2 ^ 3) = Some page /\
    size = dict_get Cl.ModFlash.FSZ (value mod 2 ^ 8) "Reserved" /\
    (15 <= value mod 2 ^ 8 -> size = "Reserved").
Proof.
  unfold Cl.ModFlash.flashParameters. cbv zeta.
  rewrite (field_bits value 0x00000700 8 3) by (reflexivity || lia).
  change 0x000000ff with (Z.ones 8). rewrite Z.land_ones by lia.
  set (fsz := value mod 2 ^ 8). set (psz := (value / 2 ^ 8) mod 2 ^ 3).
  assert (Hp : exists page, dict_lookup Cl.ModFlash.PSZ psz = Some page).
  { pose proof (page_size_cases psz
                  ltac:(apply Z.mod_pos_bound; reflexivity)) as C.
    repeat (destruct C as [->|C]; [eexists; reflexivity|]).
    rewrite C. eexists. reflexivity. }
  destruct Hp as [page Hp].
  exists (dict_get Cl.ModFlash.FSZ fsz "Reserved"), page.
  split; [|split; [exact Hp | split; [reflexivity|]]].
  - unfold dict_get at 2. rewrite Hp. reflexivity.
  - intros Hf.
    assert (Hb : fsz < 256) by (apply Z.mod_pos_bound; reflexivity).
    destruct (Z.eq_dec fsz 15) as [->|Hne]; [reflexivity|].
    unfold dict_get, Cl.ModFlash.FSZ. cbn [dict_lookup].
    repeat match goal with
           | |- context [?c =? fsz] =>
               replace (c =? fsz) with false by (symmetry; apply Z.eqb_neq; lia)
           end.
    reflexivity.
Qed.

Lemma flashParameters_lines_witness :
  Cl.ModFlash.flashParameters 0x0000040B =
    [ "    Flash Size     : 512 Kbyte"; "    Flash Page Size: 512 Byte"; "" ] /\
  exists size page,
    Cl.ModFlash.flashParameters 0x0000040B =
      [ ("    Flash Size     : " ++ size)%string;
        ("    Flash Page Size: " ++ page)%string;
        "" ] /\
    (15 <= 0x0000040B mod 2 ^ 8 -> size = "Reserved").
Proof.
  split; [reflexivity|].
  destruct (flashParameters_lines 0x0000040B) as (size & page & E & _ & _ & R).
  exists size, page. split; [exact E | exact R].
Defined.

(** ** The register dump *)

Module DumpFacts.
Import Cl.

Lemma insert_perm (x : string * Register) (l : list (string * Register)) :
  Permutation (insert_by_offset x l) (x :: l).
Proof.
  induction l as [|y l IH]; cbn; [reflexivity|].
  destruct (offset (snd x) <=? offset (snd y)); [reflexivity|].
  apply perm_trans with (y :: x :: l); [apply perm_skip, IH | apply perm_swap].
Qed.

Lemma sorted_perm (l : list (string * Register)) :
  Permutation (sorted_by_offset l) l.
Proof.
  induction l as [|x l IH]; cbn; [reflexivity|].
  apply perm_trans with (x :: sorted_by_offset l);
    [apply insert_perm | apply perm_skip, IH].
Qed.

Lemma insert_sorted (x : string * Register) (l : list (string * Register)) :
  StronglySorted by_offset l -> StronglySorted by_offset (insert_by_offset x l).
Proof.
  induction l as [|y l IH]; intros Hs; cbn.
  - repeat constructor.
  - inversion Hs as [|? ? Hl Hy]; subst.
    destruct (offset (snd x) <=? offset (snd y)) eqn:E.
    + apply Z.leb_le in E. constructor; [exact Hs|].
      constructor; [exact E|].
      eapply Forall_impl; [|exact Hy]. unfold by_offset in *. intros a Ha. lia.
    + apply Z.leb_gt in E. constructor; [apply IH, Hl|].
      eapply Permutation_Forall; [symmetry; apply insert_perm|].
      constructor; [unfold by_offset; lia | exact Hy].
Qed.

Lemma sorted_sorted (l : list (string * Register)) :
  StronglySorted by_offset (sorted_by_offset l).
Proof.
  induction l as [|x l IH]; cbn; [constructor | apply insert_sorted, IH].
Qed.

(** Two sorted arrangements of the same items are the same list when no two
    items share an offset. *)
Lemma sorted_unique (l1 : list (string * Register)) :
  forall l2,
    Permutation l1 l2 ->
    StronglySorted by_offset l1 -> StronglySorted by_offset l2 ->
    NoDup (map (fun kr : string * Register => offset (snd kr)) l1) ->
    l1 = l2.
Proof.
  induction l1 as [|a l1 IH]; intros l2 P S1 S2 N.
  - apply Permutation_nil in P. now subst.
  - destruct l2 as [|b l2];
      [apply Permutation_sym, Permutation_nil in P; discriminate P|].
    inversion S1 as [|? ? S1' F1]; subst.
    inversion S2 as [|? ? S2' F2]; subst.
    assert (Hb : In b (a :: l1))
      by (apply (Permutation_in _ (Permutation_sym P)); left; reflexivity).
    assert (Ha : In a (b :: l2))
      by (apply (Permutation_in _ P); left; reflexivity).
    assert (Lab : by_offset a b).
    { destruct Hb as [->|Hb]; [unfold by_offset; lia|].
      rewrite Forall_forall in F1. apply F1, Hb. }
    assert (Lba : by_offset b a).
    { destruct Ha as [->|Ha]; [unfold by_offset; lia|].
      rewrite Forall_forall in F2. apply F2, Ha. }
    assert (E : a = b).
    { apply (ClFacts.key_injective
               (fun kr : string * Register => offset (snd kr)) (a :: l1));
        [exact N | left; reflexivity | exact Hb |].
      unfold by_offset in *. lia. }
    subst b. f_equal.
    apply IH; [exact (Permutation_cons_inv P) | exact S1' | exact S2' |].
    cbn in N. now inversion N.
Qed.

Lemma flash_register_offsets_nodup :
  NoDup (map (fun kr : string * Register => offset (snd kr)) (REGISTERS flash)).
Proof. cbn. ClFacts.nodup_by_cases. Qed.

Lemma gpio_register_offsets_nodup :
  NoDup (map (fun kr : string * Register => offset (snd kr)) (REGISTERS gpio)).
Proof. cbn. ClFacts.nodup_by_cases. Qed.

(** However the items of a register table come out of the dict, sorting
    them by offset gives the table sorted by offset. *)
Lemma sorted_any_order (table items : list (string * Register)) :
  NoDup (map (fun kr : string * Register => offset (snd kr)) table) ->
  Permutation items table ->
  sorted_by_offset items = sorted_by_offset table.
Proof.
  intros N P.
  apply sorted_unique.
  - apply perm_trans with items; [apply sorted_perm|].
    apply perm_trans with table; [exact P | symmetry; apply sorted_perm].
  - apply sorted_sorted.
  - apply sorted_sorted.
  - eapply Permutation_NoDup; [|exact N].
    apply Permutation_map. symmetry.
    apply perm_trans with items; [apply sorted_perm | exact P].
Qed.

End DumpFacts.

Section DumpRuns.

Context {D : Type} `{Serial D}.
Variable host : endian.


End DumpRuns.



(** The order of a dump does not depend on the order in which the dict of
    registers hands out its items: no two registers of the flash module share
    an offset, and none of the GPIO module, so for every arrangement of the
    items the sort gives the registers as the source lists them, which is by
    ascending offset, and the dump is the same run. *)
Theorem dump_order_independent_of_dict_order {D : Type} `{Serial D}
    (host : endian) (items : list (string * Cl.Register)) (w : world D) :
  (Permutation items (Cl.REGISTERS Cl.flash) ->
     Cl.sorted_by_offset items = Cl.REGISTERS Cl.flash /\
     Cl.dumpModule host (Cl.mkModule Cl.ModFlash.NAME Cl.ModFlash.BASE_ADDRESS items) w
       = Cl.dumpModule host Cl.flash w) /\
  (Permutation items (Cl.REGISTERS Cl.gpio) ->
     Cl.sorted_by_offset items = Cl.REGISTERS Cl.gpio /\
     Cl.dumpModule host (Cl.mkModule Cl.ModGPIO.NAME Cl.ModGPIO.BASE_ADDRESS items) w
       = Cl.dumpModule host Cl.gpio w).
Proof.
  split; intros P.
  - pose proof (DumpFacts.sorted_any_order _ _ DumpFacts.flash_register_offsets_nodup P) as E.
    split.
    + rewrite E. reflexivity.
    + unfold Cl.dumpModule. cbn [Cl.REGISTERS Cl.BASE_ADDRESS]. rewrite E. reflexivity.
  - pose proof (DumpFacts.sorted_any_order _ _ DumpFacts.gpio_register_offsets_nodup P) as E.
    split.
    + rewrite E. reflexivity.
    + unfold Cl.dumpModule. cbn [Cl.REGISTERS Cl.BASE_ADDRESS]. rewrite E. reflexivity.
Qed.

Lemma dump_order_independent_of_dict_order_witness :
  Permutation (rev (Cl.REGISTERS Cl.flash)) (Cl.REGISTERS Cl.flash) /\
  Cl.sorted_by_offset (rev (Cl.REGISTERS Cl.flash)) = Cl.REGISTERS Cl.flash.
Proof.
  assert (P : Permutation (rev (Cl.REGISTERS Cl.flash)) (Cl.REGISTERS Cl.flash))
    by (symmetry; apply Permutation_rev).
  split; [exact P|].
  exact (proj1 (proj1 (dump_order_independent_of_dict_order LittleEndian
                         (rev (Cl.REGISTERS Cl.flash)) (start Silent)) P)).
Defined.

(** ** The truncation of unit writes *)

Lemma append_cancel_l (a b c : string) : (a ++ b = a ++ c)%string -> b = c.
Proof.
  induction a as [|x a IH]; cbn; intros E; [exact E|].
  injection E as E. apply IH, E.
Qed.

Lemma append_cancel_r (a b t : string) :
  String.length a = String.length b -> (a ++ t = b ++ t)%string -> a = b.
Proof.
  revert b. induction a as [|x a IH]; intros [|y b] Hl E; cbn in *;
    try discriminate Hl; [reflexivity|].
  injection E as -> E. f_equal. apply IH; [now injection Hl | exact E].
Qed.

Lemma str_bytes_inj (a b : string) : str_bytes a = str_bytes b -> a = b.
Proof.
  unfold str_bytes. intros E.
  rewrite <- (string_of_list_byte_of_string a), <- (string_of_list_byte_of_string b).
  now rewrite E.
Qed.

(** Two unit writes to the same address with the same opcode put the same
    frame on the line exactly when their values agree modulo [2^(8*dlen)]:
    the bits above the unit are dropped without a trace (a byte write of
    [-1] or of [0x1FF] is a write of [0xFF]), and nothing else is. *)
Theorem writeUnit_frames_agree_modulo_width {D : Type} `{Serial D}
    (cmd : string) (addr v v' dlen : Z) (w : world D) :
  unit_size dlen ->
  (trace (_writeUnit cmd addr v dlen w) = trace (_writeUnit cmd addr v' dlen w)
   <-> v mod 2 ^ (8 * dlen) = v' mod 2 ^ (8 * dlen)) /\
  (trace (_writeUnit cmd addr v dlen w) =
   trace (_writeUnit cmd addr (v mod 2 ^ (8 * dlen)) dlen w)).
Proof.
  intros Hu.
  assert (Hw : (1 <= Z.to_nat (2 * dlen))%nat)
    by (destruct Hu as [->|[->| ->]]; cbn; lia).
  assert (Hm : forall x, 0 <= x mod 2 ^ (8 * dlen) < 16 ^ Z.of_nat (Z.to_nat (2 * dlen))).
  { intros x. destruct Hu as [->|[->| ->]]; apply (Z.mod_pos_bound x); reflexivity. }
  rewrite !(_writeUnit_unit cmd addr _ dlen w Hu).
  split.
  - split.
    + intros E. cbn [Port_write on_serial trace] in E.
      injection E as E. apply str_bytes_inj in E.
      unfold write_unit_frame in E.
      do 3 apply append_cancel_l in E.
      apply append_cancel_r in E;
        [|rewrite !FmtFacts.X0_width by (apply Hw || apply Hm); reflexivity].
      exact (X0_injective (Z.to_nat (2 * dlen)) _ _
               (proj1 (Hm v)) (proj1 (Hm v')) E).
    + intros E. rewrite E. reflexivity.
  - rewrite Z.mod_mod; [reflexivity|].
    destruct Hu as [->|[->| ->]]; discriminate.
Qed.

Lemma writeUnit_frames_agree_modulo_width_witness :
  unit_size 1 /\
  trace (_writeUnit WRITE_OCTET 0x20000000 (-1) 1 (start Silent)) =
  trace (_writeUnit WRITE_OCTET 0x20000000 0x1FF 1 (start Silent)).
Proof.
  assert (Hu : unit_size 1) by (left; reflexivity).
  split; [exact Hu|].
  exact (proj2 (proj1 (writeUnit_frames_agree_modulo_width
                         WRITE_OCTET 0x20000000 (-1) 0x1FF 1 (start Silent) Hu))
           eq_refl).
Defined.

(** * Chunk commands on both paths *)





Section BulkReadCommands.

Context {D : Type} `{Serial D}.


End BulkReadCommands.



